(** * AliceVision: depth-map Refine engine and scale/offset intrinsics

    A shallow embedding of

    - [aliceVision/camera/IntrinsicsScaleOffset.hpp]: the camera-plane /
      image-plane transforms [cam2ima] and [ima2cam];
    - [aliceVision/depthMap/Refine.cpp]: the constructor of the [Refine]
      engine, its two memory accessors and the per-tile pipeline
      [refineRc] / [refineAndFuseDepthSimMap] / [optimizeDepthSimMap] /
      [exportVolumeInformation].

    Machine integers are integers of [Z] with their wrap-around written
    out ([int] is 32 bits, [size_t] is 64 bits).  Device kernels, the CUDA
    runtime and the host utilities that the two files call but do not
    define are interfaces (type classes); every statement about them is an
    explicit law of the interface. *)

From Stdlib Require Import ZArith List Bool Lia String QArith Floats Field
  Permutation.
Import ListNotations.

Local Open Scope Z_scope.

(* ================================================================== *)
(** * Camera intrinsics with scale and offset *)
(* ================================================================== *)

Module Intrinsics.

(** The arithmetic the header performs on [double]: the four operations,
    the conversion [double(_w)] of an [unsigned int] and the literal
    [0.5].  The header is embedded once, over this interface, and read at
    two instances: IEEE binary64 (what the compiled code computes) and the
    rationals (exact arithmetic). *)
Class Scalar (F : Type) : Type := {
  sadd : F -> F -> F;
  ssub : F -> F -> F;
  smul : F -> F -> F;
  sdiv : F -> F -> F;
  of_uint : Z -> F;
  one_half : F
}.

(** IEEE 754 binary64, round to nearest even: the C++ [double]. *)
#[export] Instance binary64 : Scalar float := {
  sadd := PrimFloat.add;
  ssub := PrimFloat.sub;
  smul := PrimFloat.mul;
  sdiv := PrimFloat.div;
  of_uint := fun w => PrimFloat.of_uint63 (Uint63.of_Z w);
  one_half := 0.5%float
}.

(** Exact rational arithmetic. *)
#[export] Instance exact : Scalar Q := {
  sadd := Qplus;
  ssub := Qminus;
  smul := Qmult;
  sdiv := Qdiv;
  of_uint := inject_Z;
  one_half := 1 # 2
}.

Section Header.

Context {F : Type} {SF : Scalar F}.

(** Eigen's [Vec2]: two [double] coefficients. *)
Record Vec2 : Type := mkVec2 { v0 : F; v1 : F }.

(** [p.cwiseProduct(q)] *)
Definition cwiseProduct (p q : Vec2) : Vec2 :=
  mkVec2 (smul (v0 p) (v0 q)) (smul (v1 p) (v1 q)).

(** [p + q] on [Vec2] *)
Definition vadd (p q : Vec2) : Vec2 :=
  mkVec2 (sadd (v0 p) (v0 q)) (sadd (v1 p) (v1 q)).

(** The data members read by the transforms: [_w], [_h] of
    [IntrinsicBase] and [_scale], [_offset]. *)
Record IntrinsicsScaleOffset : Type := mkIntrinsics {
  _w : Z;
  _h : Z;
  _scale : Vec2;
  _offset : Vec2
}.

(** [getPrincipalPoint]:
    [ret = _offset; ret(0) += double(_w) * 0.5; ret(1) += double(_h) * 0.5] *)
Definition getPrincipalPoint (I : IntrinsicsScaleOffset) : Vec2 :=
  mkVec2 (sadd (v0 (_offset I)) (smul (of_uint (_w I)) one_half))
         (sadd (v1 (_offset I)) (smul (of_uint (_h I)) one_half)).

(** [cam2ima(p) = p.cwiseProduct(_scale) + getPrincipalPoint()] *)
Definition cam2ima (I : IntrinsicsScaleOffset) (p : Vec2) : Vec2 :=
  vadd (cwiseProduct p (_scale I)) (getPrincipalPoint I).

(** [ima2cam(p)]: [np(i) = (p(i) - pp(i)) / _scale(i)] *)
Definition ima2cam (I : IntrinsicsScaleOffset) (p : Vec2) : Vec2 :=
  let pp := getPrincipalPoint I in
  mkVec2 (sdiv (ssub (v0 p) (v0 pp)) (v0 (_scale I)))
         (sdiv (ssub (v1 p) (v1 pp)) (v1 (_scale I))).

(** [cam2imaCentered(p) = p.cwiseProduct(_scale)] *)
Definition cam2imaCentered (I : IntrinsicsScaleOffset) (p : Vec2) : Vec2 :=
  cwiseProduct p (_scale I).

End Header.

Arguments Vec2 F : clear implicits.
Arguments IntrinsicsScaleOffset F : clear implicits.

(** Coefficient-wise rational equality of two exact points. *)
Definition veq (p q : Vec2 Q) : Prop :=
  (v0 p == v0 q)%Q /\ (v1 p == v1 q)%Q.

(** A 1x1 image, unit scale, zero offset: the principal point is
    (0.5, 0.5). *)
Definition unit_camera : IntrinsicsScaleOffset float :=
  mkIntrinsics 1 1 (mkVec2 1%float 1%float) (mkVec2 0%float 0%float).

(** An image without extent, unit scale, offset (2^70, 2^70). *)
Definition far_camera : IntrinsicsScaleOffset float :=
  mkIntrinsics 0 0 (mkVec2 1%float 1%float) (mkVec2 0x1p70%float 0x1p70%float).

(** The binary64 number nearest to one tenth. *)
Definition tenth : float := 0x1.999999999999ap-4%float.

Definition tenth_point : Vec2 float := mkVec2 tenth tenth.

(** ** Jacobians *)

(** Unary minus on [double]. *)
Class Negation (F : Type) : Type := { sopp : F -> F }.

#[export] Instance binary64_opp : Negation float := { sopp := PrimFloat.opp }.

#[export] Instance exact_opp : Negation Q := { sopp := Qopp }.

Section Jacobians.

Context {F : Type} {SF : Scalar F} {NF : Negation F}.

(** The literals [0.0], [1.0] and [2.0]. *)
Definition zero : F := of_uint 0.
Definition one : F := of_uint 1.
Definition two : F := of_uint 2.

(** [Eigen::Matrix2d], by coefficients. *)
Record Mat2 : Type := mkMat2 { m00 : F; m01 : F; m10 : F; m11 : F }.

(** [Eigen::Matrix2d::Identity()] *)
Definition Identity : Mat2 := mkMat2 one zero zero one.

(** [M * d] and [M * N] *)
Definition mulv (M : Mat2) (d : Vec2 F) : Vec2 F :=
  mkVec2 (sadd (smul (m00 M) (v0 d)) (smul (m01 M) (v1 d)))
         (sadd (smul (m10 M) (v0 d)) (smul (m11 M) (v1 d))).

Definition mmul (M N : Mat2) : Mat2 :=
  mkMat2 (sadd (smul (m00 M) (m00 N)) (smul (m01 M) (m10 N)))
         (sadd (smul (m00 M) (m01 N)) (smul (m01 M) (m11 N)))
         (sadd (smul (m10 M) (m00 N)) (smul (m11 M) (m10 N)))
         (sadd (smul (m10 M) (m01 N)) (smul (m11 M) (m11 N))).

(** [getDerivativeCam2ImaWrtScale(p)]: zero but [M(0,0) = p(0)],
    [M(1,1) = p(1)]. *)
Definition getDerivativeCam2ImaWrtScale (I : IntrinsicsScaleOffset F)
    (p : Vec2 F) : Mat2 :=
  mkMat2 (v0 p) zero zero (v1 p).

(** [getDerivativeCam2ImaWrtPt()] *)
Definition getDerivativeCam2ImaWrtPt (I : IntrinsicsScaleOffset F) : Mat2 :=
  mkMat2 (v0 (_scale I)) zero zero (v1 (_scale I)).

(** [getDerivativeCam2ImaWrtPrincipalPt()] *)
Definition getDerivativeCam2ImaWrtPrincipalPt (I : IntrinsicsScaleOffset F)
  : Mat2 := Identity.

(** [getDerivativeIma2CamWrtScale(p)]:
    [M(i,i) = -(p(i) - pp(i)) / (_scale(i) * _scale(i))] *)
Definition getDerivativeIma2CamWrtScale (I : IntrinsicsScaleOffset F)
    (p : Vec2 F) : Mat2 :=
  let pp := getPrincipalPoint I in
  mkMat2
    (sdiv (sopp (ssub (v0 p) (v0 pp))) (smul (v0 (_scale I)) (v0 (_scale I))))
    zero zero
    (sdiv (sopp (ssub (v1 p) (v1 pp))) (smul (v1 (_scale I)) (v1 (_scale I)))).

(** [getDerivativeIma2CamWrtPt()]: [M(i,i) = 1.0 / _scale(i)] *)
Definition getDerivativeIma2CamWrtPt (I : IntrinsicsScaleOffset F) : Mat2 :=
  mkMat2 (sdiv one (v0 (_scale I))) zero zero (sdiv one (v1 (_scale I))).

(** [getDerivativeIma2CamWrtPrincipalPt()]: [M(i,i) = - 1.0 / _scale(i)] *)
Definition getDerivativeIma2CamWrtPrincipalPt (I : IntrinsicsScaleOffset F)
  : Mat2 :=
  mkMat2 (sdiv (sopp one) (v0 (_scale I))) zero zero
         (sdiv (sopp one) (v1 (_scale I))).

(** [setScale] and [setOffset] *)
Definition setScale (I : IntrinsicsScaleOffset F) (s : Vec2 F)
  : IntrinsicsScaleOffset F :=
  mkIntrinsics (_w I) (_h I) s (_offset I).

Definition setOffset (I : IntrinsicsScaleOffset F) (o : Vec2 F)
  : IntrinsicsScaleOffset F :=
  mkIntrinsics (_w I) (_h I) (_scale I) o.

End Jacobians.

Arguments Mat2 F : clear implicits.

(** Coefficient-wise rational equality of two exact matrices. *)
Definition meq (M N : Mat2 Q) : Prop :=
  (m00 M == m00 N)%Q /\ (m01 M == m01 N)%Q
  /\ (m10 M == m10 N)%Q /\ (m11 M == m11 N)%Q.

(** ** Parameters loaded from a file *)

(** [aliceVision::Version] and its [operator<] are declared outside the
    header: a version is built from three numbers and two versions are
    compared. *)
Class VersionOrder : Type := {
  Version : Type;
  mkVersion : Z -> Z -> Z -> Version;
  version_lt : Version -> Version -> bool
}.

(** What is older than 1.2.0 is older than 1.2.1. *)
Class VersionLaws (V : VersionOrder) : Prop := {
  before_1_2_0 : forall v,
    version_lt v (mkVersion 1 2 0) = true ->
    version_lt v (mkVersion 1 2 1) = true
}.

(** Versions as triples in lexicographic order. *)
Definition lex_lt (a b : Z * Z * Z) : bool :=
  let '(a1, a2, a3) := a in
  let '(b1, b2, b3) := b in
  (a1 <? b1) || ((a1 =? b1) && ((a2 <? b2) || ((a2 =? b2) && (a3 <? b3)))).

#[export] Instance lexVersion : VersionOrder := {
  Version := Z * Z * Z;
  mkVersion := fun a b c => (a, b, c);
  version_lt := lex_lt
}.

Section Vectors.

Context {A : Type}.

(** [v[i]] on a [std::vector]: an index out of range has no defined
    behaviour, which is [None]. *)
Definition vget (v : list A) (i : nat) : option A := nth_error v i.

(** [v[i] = x] *)
Definition vset (v : list A) (i : nat) (x : A) : option (list A) :=
  if (i <? List.length v)%nat
  then Some (firstn i v ++ x :: skipn (S i) v)
  else None.

(** [v.resize(n)] with new elements equal to [fill]. *)
Definition resize (v : list A) (n : nat) (fill : A) : list A :=
  firstn n v ++ repeat fill (n - List.length v).

(** Sequencing of vector accesses: the first undefined one ends it. *)
Definition andThen {B C} (c : option B) (k : B -> option C) : option C :=
  match c with Some b => k b | None => None end.

(** [for (int i = from; i < params.size(); i++) out[i + 1] = params[i];]
    over the indices [from, from + count). *)
Fixpoint shiftCopy (params : list A) (from count : nat) (out : list A)
  : option (list A) :=
  match count with
  | O => Some out
  | S count' =>
      andThen (vget params from) (fun x =>
      andThen (vset out (S from) x) (fun out' =>
      shiftCopy params (S from) count' out'))
  end.

End Vectors.

Section ParamsImport.

Context {F : Type} {SF : Scalar F} {V : VersionOrder}.

(** [updateFromParams(params)]: the returned flag and the object after
    the call. *)
Definition updateFromParams (I : IntrinsicsScaleOffset F) (params : list F)
  : bool * IntrinsicsScaleOffset F :=
  if negb (List.length params =? 4)%nat
  then (false, I)
  else
    (true,
     mkIntrinsics (_w I) (_h I)
       (mkVec2 (nth 0 params zero) (nth 1 params zero))
       (mkVec2 (nth 2 params zero) (nth 3 params zero))).

(** [updateParamsFromVersion(updated_params, params, inputVersion)]: the
    returned flag and [updated_params] after the call, or [None] when a
    vector is indexed out of range. *)
Definition updateParamsFromVersion (I : IntrinsicsScaleOffset F)
    (updated_params params : list F) (inputVersion : Version)
  : option (bool * list F) :=
  andThen
    (if version_lt inputVersion (mkVersion 1 2 0)
     then
       let u := resize updated_params (List.length params + 1) zero in
       andThen (vget params 0) (fun p0 =>
       andThen (vset u 0 p0) (fun u =>
       andThen (vget params 0) (fun p0 =>
       andThen (vset u 1 p0) (fun u =>
       shiftCopy params 1 (List.length params - 1) u))))
     else Some params)
    (fun u =>
  andThen
    (if version_lt inputVersion (mkVersion 1 2 1)
     then
       andThen (vget u 2) (fun x2 =>
       andThen (vset u 2 (ssub x2 (sdiv (of_uint (_w I)) two))) (fun u =>
       andThen (vget u 3) (fun x3 =>
       vset u 3 (ssub x3 (sdiv (of_uint (_h I)) two)))))
     else Some u)
    (fun u => Some (true, u))).

(** A principal point given from the top-left corner, as an offset from
    the image centre: [c(0) - double(_w) / 2.0], [c(1) - double(_h) / 2.0]. *)
Definition fromCorner (I : IntrinsicsScaleOffset F) (cx cy : F) : Vec2 F :=
  mkVec2 (ssub cx (sdiv (of_uint (_w I)) two))
         (ssub cy (sdiv (of_uint (_h I)) two)).

(** [importFromParams(params, inputVersion)] *)
Definition importFromParams (I : IntrinsicsScaleOffset F) (params : list F)
    (inputVersion : Version) : option (bool * IntrinsicsScaleOffset F) :=
  let localParams := [] in
  andThen (updateParamsFromVersion I localParams params inputVersion)
    (fun r =>
       if negb (fst r) then Some (false, I)
       else
         let r' := updateFromParams I (snd r) in
         if negb (fst r') then Some (false, I) else Some (true, snd r')).

End ParamsImport.

(** A 640x480 camera in exact arithmetic, with scale (3, 7/2) and offset
    (1/4, 0). *)
Definition vga : IntrinsicsScaleOffset Q :=
  mkIntrinsics 640 480 (mkVec2 (3 # 1) (7 # 2)) (mkVec2 (1 # 4) (0 # 1)).

End Intrinsics.

(* ================================================================== *)
(** * The Refine engine: data model *)
(* ================================================================== *)

Module DepthMap.

(** ** Machine integers *)

(** A value reduced to the 32-bit two's complement range of [int]. *)
Definition wrap_int (z : Z) : Z := (z + 2 ^ 31) mod 2 ^ 32 - 2 ^ 31.

(** A value reduced to the 64-bit range of [size_t]. *)
Definition wrap_size (z : Z) : Z := z mod 2 ^ 64.

(** The implicit conversion of an [int] to [size_t]. *)
Definition size_of_int (z : Z) : Z := z mod 2 ^ 64.

(** Rounding to a multiple of [2^e], to nearest, ties to the even
    multiple. *)
Definition round_at (e n : Z) : Z :=
  let q := n / 2 ^ e in
  let r := n mod 2 ^ e in
  let half := 2 ^ (e - 1) in
  (if r <? half then q
   else if half <? r then q + 1
   else if Z.even q then q else q + 1) * 2 ^ e.

(** [double(bytes)] for a [size_t]: the nearest number with a 53-bit
    significand, ties to even.  The result is an integer below or equal
    to 2^64, so it is kept as an integer. *)
Definition double_of_size_t (n : Z) : Z :=
  if n <? 2 ^ 53 then n else round_at (Z.log2 n - 52) n.

(** [double(bytes) / (1024.0 * 1024.0)]: dividing a binary64 number of
    this range by 2^20 is exact, so the returned [double] is the
    rational below. *)
Definition megabytes (bytes : Z) : Q := Qmake (double_of_size_t bytes) (2 ^ 20).

(** ** Parameters and tiles *)

(** The two fields of [mvsUtils::TileParams] the constructor reads. *)
Record TileParams : Type := mkTileParams {
  bufferWidth : Z;
  bufferHeight : Z
}.

(** The fields of [RefineParams] that [Refine.cpp] reads. *)
Record RefineParams : Type := mkRefineParams {
  scale : Z;
  stepXY : Z;
  halfNbDepths : Z;
  useRefineFuse : bool;
  useColorOptimization : bool;
  useNormalMap : bool;
  optimizationNbIterations : Z;
  exportIntermediateDepthSimMaps : bool;
  exportIntermediateCrossVolumes : bool;
  exportIntermediateVolume9pCsv : bool
}.

Record Range : Type := mkRange { range_begin : Z; range_end : Z }.

Record ROI : Type := mkROI { roi_x : Range; roi_y : Range }.

Record Tile : Type := mkTile {
  rc : Z;
  roi : ROI;
  refineTCams : list Z;
  nbTiles : Z
}.

(** The parameters with the three export flags replaced. *)
Definition with_export_flags (rp : RefineParams) (maps cross csv : bool)
  : RefineParams :=
  mkRefineParams (scale rp) (stepXY rp) (halfNbDepths rp) (useRefineFuse rp)
    (useColorOptimization rp) (useNormalMap rp) (optimizationNbIterations rp)
    maps cross csv.

(** The parameters with the iteration count replaced. *)
Definition with_iterations (rp : RefineParams) (n : Z) : RefineParams :=
  mkRefineParams (scale rp) (stepXY rp) (halfNbDepths rp) (useRefineFuse rp)
    (useColorOptimization rp) (useNormalMap rp) n
    (exportIntermediateDepthSimMaps rp) (exportIntermediateCrossVolumes rp)
    (exportIntermediateVolume9pCsv rp).

(** The parameters with [halfNbDepths] replaced. *)
Definition with_halfNbDepths (rp : RefineParams) (n : Z) : RefineParams :=
  mkRefineParams (scale rp) (stepXY rp) n (useRefineFuse rp)
    (useColorOptimization rp) (useNormalMap rp) (optimizationNbIterations rp)
    (exportIntermediateDepthSimMaps rp) (exportIntermediateCrossVolumes rp)
    (exportIntermediateVolume9pCsv rp).


(** ** Device values *)

(** A device [float] is its 32-bit IEEE pattern; the kernels that compute
    with floats are abstract, the engine only moves them. *)
Definition float32 : Type := Z.

(** The pattern of [1.0f]. *)
Definition one_f : float32 := 0x3F800000.

(** The pattern of [TSimRefine(0.f)] (all bits clear for float and half). *)
Definition zero_sim : Z := 0.

Definition float2 : Type := (float32 * float32)%type.
Definition float3 : Type := (float32 * float32 * float32)%type.

Definition sizeof_float : Z := 4.
Definition sizeof_float2 : Z := 8.
Definition sizeof_float3 : Z := 12.

(** Contents of the 2D and 3D device buffers, by element coordinates. *)
Definition DepthSimData : Type := Z -> Z -> float2.
Definition NormalData : Type := Z -> Z -> float3.
Definition FloatData : Type := Z -> Z -> float32.
Definition VolumeData : Type := Z -> Z -> Z -> Z.

(** ** Device buffers *)

(** Modelled from the spec: [CudaDeviceMemoryPitched<Type, Dim>] is
    declared outside the two source files.  The spec describes raw device
    buffers that keep a padded and an unpadded (logical) byte count, are
    sized once by [allocate] and are afterwards only overwritten.  The
    record keeps the bookkeeping the engine reads: whether the buffer
    pointer is set, the size per dimension ([size_t]), the row pitch in
    bytes, the element size, and the contents. *)
Record CudaDeviceMemoryPitched (D : Type) : Type := mkBuffer {
  getBuffer : bool;
  getSize : list Z;
  getPitch : Z;
  sizeofType : Z;
  contents : D
}.

Arguments mkBuffer {D}.
Arguments getBuffer {D}.
Arguments getSize {D}.
Arguments getPitch {D}.
Arguments sizeofType {D}.
Arguments contents {D}.

(** A declared, not yet allocated buffer of [dim] dimensions. *)
Definition unallocated {D} (dim : nat) (elem : Z) (d : D)
  : CudaDeviceMemoryPitched D :=
  mkBuffer false (repeat 0 dim) 0 elem d.

(** A kernel or a copy overwrites the contents and nothing else. *)
Definition overwrite {D} (b : CudaDeviceMemoryPitched D) (d : D)
  : CudaDeviceMemoryPitched D :=
  mkBuffer (getBuffer b) (getSize b) (getPitch b) (sizeofType b) d.

(** The product of a row count with the extents of the outer dimensions,
    in [size_t] arithmetic. *)
Definition times_outer (row : Z) (outer : list Z) : Z :=
  fold_left (fun acc d => wrap_size (acc * d)) outer row.

(** Modelled from the spec: the logical (unpadded) byte count, element
    size times the extent of every dimension. *)
Definition getBytesUnpadded {D} (b : CudaDeviceMemoryPitched D) : Z :=
  times_outer (wrap_size (hd 0 (getSize b) * sizeofType b)) (tl (getSize b)).

(** Modelled from the spec: the padded byte count, row pitch times the
    extent of every outer dimension. *)
Definition getBytesPadded {D} (b : CudaDeviceMemoryPitched D) : Z :=
  times_outer (getPitch b) (tl (getSize b)).

(** The same two counts without wrap-around, for the proofs. *)
Definition exact_outer (outer : list Z) : Z := fold_left Z.mul outer 1.

Definition exactUnpadded {D} (b : CudaDeviceMemoryPitched D) : Z :=
  hd 0 (getSize b) * sizeofType b * exact_outer (tl (getSize b)).

Definition exactPadded {D} (b : CudaDeviceMemoryPitched D) : Z :=
  getPitch b * exact_outer (tl (getSize b)).

(** ** The CUDA runtime *)

(** Modelled from the spec: the device allocator is outside the sources.
    [deviceMalloc mem n] reserves [n] bytes or fails (the failure is the
    exception that aborts construction); [rowPitch n] is the pitch the
    device chooses for rows of [n] bytes; [bytesInUse] measures a memory
    state. *)
Class CudaRuntime : Type := {
  DeviceMemory : Type;
  bytesInUse : DeviceMemory -> Z;
  rowPitch : Z -> Z;
  deviceMalloc : DeviceMemory -> Z -> option DeviceMemory
}.

(** What a device does: a successful reservation is accounted for and
    stays within the 64-bit address space, and a pitch is not negative. *)
Class CudaRuntimeLaws (R : CudaRuntime) : Prop := {
  malloc_accounts : forall mem n mem',
    deviceMalloc mem n = Some mem' ->
    0 <= bytesInUse mem ->
    bytesInUse mem' = bytesInUse mem + n /\ bytesInUse mem' < 2 ^ 64;
  pitch_nonneg : forall n, 0 <= n -> 0 <= rowPitch n
}.

(** What a pitch is: at least the row it pads, and not smaller for a
    longer row. *)
Class PitchLaws (R : CudaRuntime) : Prop := {
  pitch_covers_row : forall n, 0 <= n -> n <= rowPitch n;
  pitch_monotone : forall n m, 0 <= n <= m -> rowPitch n <= rowPitch m
}.

Section Allocation.

Context {R : CudaRuntime}.

(** Modelled from the spec: [buffer.allocate(size)].  The row of
    [size[0]] elements is padded to the device pitch and
    pitch x outer extents bytes are reserved; a refusal of the device
    aborts. *)
Definition allocate {D} (b : CudaDeviceMemoryPitched D) (dims : list Z)
    (mem : DeviceMemory) : option (CudaDeviceMemoryPitched D * DeviceMemory) :=
  let pitch := rowPitch (wrap_size (hd 0 dims * sizeofType b)) in
  match deviceMalloc mem (pitch * exact_outer (tl dims)) with
  | Some mem' => Some (mkBuffer true dims pitch (sizeofType b) (contents b), mem')
  | None => None
  end.

End Allocation.

(** ** Host utilities and device kernels *)

(** The host-side helpers that [Refine.cpp] calls and that are defined
    elsewhere: the calibration registry type, the rounding-up integer
    division on [int], the ROI downscaling and the size of one element of
    the similarity volume. *)
Class HostUtils : Type := {
  MultiViewParams : Type;
  divideRoundUp : Z -> Z -> Z;
  downscaleROI : ROI -> Z -> ROI;
  sizeof_TSimRefine : Z
}.

(** For a positive divisor and a dividend that is not negative,
    [divideRoundUp] returns an [int] that is not negative and does not
    decrease with the dividend.  An element of the volume has a size of a
    few bytes. *)
Class HostUtilsLaws (H : HostUtils) : Prop := {
  divideRoundUp_bounds : forall a b,
    0 < b -> 0 <= a < 2 ^ 31 -> 0 <= divideRoundUp a b < 2 ^ 31;
  divideRoundUp_monotone : forall a a' b,
    0 < b -> 0 <= a <= a' -> divideRoundUp a b <= divideRoundUp a' b;
  sizeof_TSimRefine_range : 0 < sizeof_TSimRefine < 2 ^ 16
}.

Definition DepthSimMap : Type := CudaDeviceMemoryPitched DepthSimData.
Definition NormalMap : Type := CudaDeviceMemoryPitched NormalData.
Definition FloatMap : Type := CudaDeviceMemoryPitched FloatData.
Definition SimVolume : Type := CudaDeviceMemoryPitched VolumeData.

(** The device camera cache and the kernels launched by the engine.  A
    kernel receives the buffers as the C++ call passes them and returns
    the new contents of the buffer (or buffers) it writes; it cannot
    resize a buffer.  A camera handle is the value the cache returned
    when it was requested. *)
Class DeviceKernels {H : HostUtils} : Type := {
  DeviceCamera : Type;
  DeviceCache : Type;
  (* deviceCache.requestCamera(camId, scale, mp) *)
  requestCamera : DeviceCache -> Z -> Z -> MultiViewParams
                  -> DeviceCamera * DeviceCache;
  (* out, in_sgmDepthSimMap, rcDeviceCamera, refineParams, roi *)
  cuda_depthSimMapUpscaleAndFilter :
    DepthSimMap -> DepthSimMap -> DeviceCamera -> RefineParams -> ROI
    -> DepthSimData;
  (* inout, rcDeviceCamera, refineParams, roi *)
  cuda_depthSimMapComputePixSize :
    DepthSimMap -> DeviceCamera -> RefineParams -> ROI -> DepthSimData;
  (* out, in_sgmNormalMap, roi *)
  cuda_normalMapUpscale : NormalMap -> NormalMap -> ROI -> NormalData;
  (* inout volume, sgmDepthPixSizeMap, normal map or nullptr, rc camera,
     tc camera, refineParams, depthRange, roi *)
  cuda_volumeRefineSimilarity :
    SimVolume -> DepthSimMap -> option NormalMap -> DeviceCamera
    -> DeviceCamera -> RefineParams -> Range -> ROI -> VolumeData;
  (* out, sgmDepthPixSizeMap, volume, rc camera, refineParams, roi *)
  cuda_volumeRefineBestDepth :
    DepthSimMap -> DepthSimMap -> SimVolume -> DeviceCamera -> RefineParams
    -> ROI -> DepthSimData;
  (* out optimized, variance buffer, temporary buffer, sgmDepthPixSizeMap,
     refinedDepthSimMap, rc camera, refineParams, roi *)
  cuda_depthSimMapOptimizeGradientDescent :
    DepthSimMap -> FloatMap -> FloatMap -> DepthSimMap -> DepthSimMap
    -> DeviceCamera -> RefineParams -> ROI
    -> DepthSimData * FloatData * FloatData
}.

(** Modelled from the spec: [cuda_depthSimMapCopyDepthOnly(out, in,
    defaultSim)] is a kernel outside the sources; the spec says it copies
    the upscaled depth through unchanged and fixes similarity to a
    constant. *)
Definition cuda_depthSimMapCopyDepthOnly (in_depthSimMap : DepthSimMap)
    (defaultSim : float32) : DepthSimData :=
  fun x y => (fst (contents in_depthSimMap x y), defaultSim).

(** Modelled from the spec: [cuda_volumeInitialize(volume, value)] sets
    every element of the similarity volume to [value]. *)
Definition cuda_volumeInitialize (value : Z) : VolumeData :=
  fun _ _ _ => value.

(** Modelled from the spec: [dst.copyFrom(src, stream)] is a verbatim
    device-to-device copy of the contents. *)
Definition copyFrom {D} (dst src : CudaDeviceMemoryPitched D)
  : CudaDeviceMemoryPitched D :=
  overwrite dst (contents src).

(** ** The engine object *)

Section Engine.

Context {R : CudaRuntime} {H : HostUtils} {K : DeviceKernels}.

(** The data members of [class Refine] (the stream handle is left out:
    every operation of one engine is issued in program order).  The log
    messages of the member functions, and [getViewId], which only feeds
    them, are left out as well. *)
Record Refine : Type := mkRefine {
  _mp : MultiViewParams;
  _tileParams : TileParams;
  _refineParams : RefineParams;
  _sgmDepthPixSizeMap_dmp : DepthSimMap;
  _refinedDepthSimMap_dmp : DepthSimMap;
  _optimizedDepthSimMap_dmp : DepthSimMap;
  _normalMap_dmp : NormalMap;
  _volumeRefineSim_dmp : SimVolume;
  _optImgVariance_dmp : FloatMap;
  _optTmpDepthMap_dmp : FloatMap
}.

(** Contents of device memory that was never written. *)
Definition blank2 : DepthSimData := fun _ _ => (0, 0).
Definition blank3 : NormalData := fun _ _ => (0, 0, 0).
Definition blank1 : FloatData := fun _ _ => 0.
Definition blankV : VolumeData := fun _ _ _ => 0.

(** How a construction ends: with an engine and the device memory it
    leaves behind; in the integer division by zero of [divideRoundUp],
    which stops the process, in device state [mem]; or in the exception
    of the allocation of [bytes] bytes that the device refused in state
    [mem]. *)
Inductive Construction : Type :=
| Constructed (e : Refine) (mem : DeviceMemory)
| DividedByZero (mem : DeviceMemory)
| AllocationRefused (mem : DeviceMemory) (bytes : Z).

(** One [buffer.allocate(dims)] of the constructor, followed by the rest
    [k] of the construction; a refusal of the device ends it. *)
Definition allocating {D} (b : CudaDeviceMemoryPitched D) (dims : list Z)
    (mem : DeviceMemory)
    (k : CudaDeviceMemoryPitched D -> DeviceMemory -> Construction)
  : Construction :=
  match allocate b dims mem with
  | Some (b', mem') => k b' mem'
  | None =>
      AllocationRefused mem
        (rowPitch (wrap_size (hd 0 dims * sizeofType b)) * exact_outer (tl dims))
  end.

Notation "' ( b , m ) <- c ;; k" := (c (fun b m => k))
  (at level 61, b name, m name, c at next level, right associativity).

(** [Refine::Refine(mp, tileParams, refineParams, stream)] *)
Definition Refine_construct (mp : MultiViewParams) (tileParams : TileParams)
    (refineParams : RefineParams) (mem : DeviceMemory) : Construction :=
  (* get tile maximum dimensions *)
  let downscale := wrap_int (scale refineParams * stepXY refineParams) in
  (* divideRoundUp(x, downscale) divides by downscale *)
  if downscale =? 0 then DividedByZero mem else
  let maxTileWidth := divideRoundUp (bufferWidth tileParams) downscale in
  let maxTileHeight := divideRoundUp (bufferHeight tileParams) downscale in
  (* compute depth/sim map maximum dimensions *)
  let depthSimMapDim := [size_of_int maxTileWidth; size_of_int maxTileHeight] in
  (* allocate depth/sim maps in device memory *)
  ' (sgm, mem) <- allocating (unallocated 2 sizeof_float2 blank2) depthSimMapDim mem ;;
  ' (refined, mem) <- allocating (unallocated 2 sizeof_float2 blank2) depthSimMapDim mem ;;
  ' (optimized, mem) <- allocating (unallocated 2 sizeof_float2 blank2) depthSimMapDim mem ;;
  (* allocate normal map in device memory *)
  ' (normal, mem) <-
      (if useNormalMap refineParams
       then allocating (unallocated 2 sizeof_float3 blank3) depthSimMapDim mem
       else fun k => k (unallocated 2 sizeof_float3 blank3) mem) ;;
  (* compute volume maximum dimensions *)
  let nbDepthsToRefine := wrap_int (halfNbDepths refineParams * 2 + 1) in
  let volDim := [size_of_int maxTileWidth; size_of_int maxTileHeight;
                 size_of_int nbDepthsToRefine] in
  (* allocate refine volume in device memory *)
  ' (volume, mem) <- allocating (unallocated 3 sizeof_TSimRefine blankV) volDim mem ;;
  (* allocate depth/sim map optimization buffers *)
  if useColorOptimization refineParams
  then
    ' (variance, mem) <- allocating (unallocated 2 sizeof_float blank1) depthSimMapDim mem ;;
    ' (tmp, mem) <- allocating (unallocated 2 sizeof_float blank1) depthSimMapDim mem ;;
    Constructed (mkRefine mp tileParams refineParams sgm refined optimized
                   normal volume variance tmp) mem
  else
    Constructed (mkRefine mp tileParams refineParams sgm refined optimized
                   normal volume (unallocated 2 sizeof_float blank1)
                   (unallocated 2 sizeof_float blank1)) mem.

(** The engine and the device memory of a construction that returns. *)
Definition Refine_ctor (mp : MultiViewParams) (tileParams : TileParams)
    (refineParams : RefineParams) (mem : DeviceMemory)
  : option (Refine * DeviceMemory) :=
  match Refine_construct mp tileParams refineParams mem with
  | Constructed e mem' => Some (e, mem')
  | _ => None
  end.

(** [scale * stepXY] on [int] *)
Definition downscaleFactor (rp : RefineParams) : Z :=
  wrap_int (scale rp * stepXY rp).

(** The buffer [allocate] leaves behind when the device accepts. *)
Definition allocated {D} (b : CudaDeviceMemoryPitched D) (dims : list Z)
  : CudaDeviceMemoryPitched D :=
  mkBuffer true dims (rowPitch (wrap_size (hd 0 dims * sizeofType b)))
    (sizeofType b) (contents b).

(** The maximum tile dimensions and the number of depths, as [size_t]. *)
Definition maxTileWidth (tp : TileParams) (rp : RefineParams) : Z :=
  size_of_int (divideRoundUp (bufferWidth tp) (downscaleFactor rp)).

Definition maxTileHeight (tp : TileParams) (rp : RefineParams) : Z :=
  size_of_int (divideRoundUp (bufferHeight tp) (downscaleFactor rp)).

Definition nbDepthsToRefine (rp : RefineParams) : Z :=
  size_of_int (wrap_int (halfNbDepths rp * 2 + 1)).

(** The engine a successful construction returns. *)
Definition engineOf (mp : MultiViewParams) (tp : TileParams)
    (rp : RefineParams) : Refine :=
  let dim2 := [maxTileWidth tp rp; maxTileHeight tp rp] in
  let dim3 := [maxTileWidth tp rp; maxTileHeight tp rp; nbDepthsToRefine rp] in
  mkRefine mp tp rp
    (allocated (unallocated 2 sizeof_float2 blank2) dim2)
    (allocated (unallocated 2 sizeof_float2 blank2) dim2)
    (allocated (unallocated 2 sizeof_float2 blank2) dim2)
    (if useNormalMap rp
     then allocated (unallocated 2 sizeof_float3 blank3) dim2
     else unallocated 2 sizeof_float3 blank3)
    (allocated (unallocated 3 sizeof_TSimRefine blankV) dim3)
    (if useColorOptimization rp
     then allocated (unallocated 2 sizeof_float blank1) dim2
     else unallocated 2 sizeof_float blank1)
    (if useColorOptimization rp
     then allocated (unallocated 2 sizeof_float blank1) dim2
     else unallocated 2 sizeof_float blank1).

(** The device allocations of a construction, as byte counts in the order
    of the source: the three depth/similarity maps, the normal map when
    [useNormalMap] is set, the similarity volume, and the two
    optimization buffers when [useColorOptimization] is set. *)
Definition allocationRequests (tp : TileParams) (rp : RefineParams)
  : list Z :=
  let dim2 := [maxTileWidth tp rp; maxTileHeight tp rp] in
  let dim3 := [maxTileWidth tp rp; maxTileHeight tp rp; nbDepthsToRefine rp] in
  [ exactPadded (allocated (unallocated 2 sizeof_float2 blank2) dim2);
    exactPadded (allocated (unallocated 2 sizeof_float2 blank2) dim2);
    exactPadded (allocated (unallocated 2 sizeof_float2 blank2) dim2) ]
  ++ (if useNormalMap rp
      then [ exactPadded (allocated (unallocated 2 sizeof_float3 blank3) dim2) ]
      else [])
  ++ [ exactPadded (allocated (unallocated 3 sizeof_TSimRefine blankV) dim3) ]
  ++ (if useColorOptimization rp
      then [ exactPadded (allocated (unallocated 2 sizeof_float blank1) dim2);
             exactPadded (allocated (unallocated 2 sizeof_float blank1) dim2) ]
      else []).

(** The device serving a list of requests one after the other: the
    memory it ends in, or the state and the request of the first
    refusal. *)
Fixpoint reserve (requests : list Z) (mem : DeviceMemory)
  : DeviceMemory + DeviceMemory * Z :=
  match requests with
  | [] => inl mem
  | n :: rest =>
      match deviceMalloc mem n with
      | Some mem' => reserve rest mem'
      | None => inr (mem, n)
      end
  end.

(** The bytes the seven buffers of an engine occupy on the device. *)
Definition deviceBytes (e : Refine) : Z :=
  exactPadded (_sgmDepthPixSizeMap_dmp e)
  + exactPadded (_refinedDepthSimMap_dmp e)
  + exactPadded (_optimizedDepthSimMap_dmp e)
  + exactPadded (_normalMap_dmp e)
  + exactPadded (_volumeRefineSim_dmp e)
  + exactPadded (_optImgVariance_dmp e)
  + exactPadded (_optTmpDepthMap_dmp e).

(** The [size_t bytes] accumulated by [getDeviceMemoryConsumption]. *)
Definition paddedBytes (e : Refine) : Z :=
  let bytes := 0 in
  let bytes := wrap_size (bytes + getBytesPadded (_sgmDepthPixSizeMap_dmp e)) in
  let bytes := wrap_size (bytes + getBytesPadded (_refinedDepthSimMap_dmp e)) in
  let bytes := wrap_size (bytes + getBytesPadded (_optimizedDepthSimMap_dmp e)) in
  let bytes := wrap_size (bytes + getBytesPadded (_normalMap_dmp e)) in
  let bytes := wrap_size (bytes + getBytesPadded (_volumeRefineSim_dmp e)) in
  if useColorOptimization (_refineParams e)
  then
    let bytes := wrap_size (bytes + getBytesPadded (_optImgVariance_dmp e)) in
    wrap_size (bytes + getBytesPadded (_optTmpDepthMap_dmp e))
  else bytes.

(** [Refine::getDeviceMemoryConsumption] *)
Definition getDeviceMemoryConsumption (e : Refine) : Q :=
  megabytes (paddedBytes e).

(** The [size_t bytes] accumulated by [getDeviceMemoryConsumptionUnpadded]. *)
Definition unpaddedBytes (e : Refine) : Z :=
  let bytes := 0 in
  let bytes := wrap_size (bytes + getBytesUnpadded (_sgmDepthPixSizeMap_dmp e)) in
  let bytes := wrap_size (bytes + getBytesUnpadded (_refinedDepthSimMap_dmp e)) in
  let bytes := wrap_size (bytes + getBytesUnpadded (_optimizedDepthSimMap_dmp e)) in
  let bytes := wrap_size (bytes + getBytesUnpadded (_normalMap_dmp e)) in
  let bytes := wrap_size (bytes + getBytesUnpadded (_volumeRefineSim_dmp e)) in
  if useColorOptimization (_refineParams e)
  then
    let bytes := wrap_size (bytes + getBytesUnpadded (_optImgVariance_dmp e)) in
    wrap_size (bytes + getBytesUnpadded (_optTmpDepthMap_dmp e))
  else bytes.

(** [Refine::getDeviceMemoryConsumptionUnpadded] *)
Definition getDeviceMemoryConsumptionUnpadded (e : Refine) : Q :=
  megabytes (unpaddedBytes e).

(** The buffers an accessor adds up, as (padded, unpadded) byte counts in
    the order of the source: five unconditional ones, then the two
    optimization buffers when [useColorOptimization] is set. *)
Definition accountedBuffers (e : Refine) : list (Z * Z) :=
  let both {D} (b : CudaDeviceMemoryPitched D) :=
    (getBytesPadded b, getBytesUnpadded b) in
  [ both (_sgmDepthPixSizeMap_dmp e); both (_refinedDepthSimMap_dmp e);
    both (_optimizedDepthSimMap_dmp e); both (_normalMap_dmp e);
    both (_volumeRefineSim_dmp e) ]
  ++ (if useColorOptimization (_refineParams e)
      then [ both (_optImgVariance_dmp e); both (_optTmpDepthMap_dmp e) ]
      else []).

(** [bytes += x] over a list of byte counts, in [size_t]. *)
Definition sum_size (l : list Z) : Z :=
  fold_left (fun bytes x => wrap_size (bytes + x)) l 0.

(** ** Effects of the per-tile pipeline *)

(** The kernels the engine enqueues on its stream. *)
Inductive Kernel : Type :=
| DepthSimMapUpscaleAndFilter
| DepthSimMapComputePixSize
| NormalMapUpscale
| DepthSimMapCopyDepthOnly
| VolumeInitialize
| VolumeRefineSimilarity (tc : Z) (depthRange : Range)
| VolumeRefineBestDepth
| DepthSimMapOptimizeGradientDescent.

(** What one call leaves behind besides the buffers: kernel launches,
    device copies, and the work done for the diagnostics exporter (a file
    written by [writeDepthSimMap], a device-to-host copy, a call of
    [exportSimilarityVolumeCross] or [exportSimilaritySamplesCSV]). *)
Inductive Event : Type :=
| Launch (k : Kernel)
| DeviceCopy
| WriteDepthSimMap (rc : Z) (roi : ROI) (map : DepthSimMap)
    (scale stepXY : Z) (name : string)
| HostCopyVolume (volume : SimVolume)
| HostCopyDepthPixSize (map : DepthSimMap)
| ExportSimilarityVolumeCross (rc : Z) (name : string)
    (tileBeginX tileBeginY : Z) (roi : ROI)
| ExportSimilaritySamplesCSV (rc : Z) (name : string)
    (tileBeginX tileBeginY : Z).

(** Diagnostics export work. *)
Definition is_export (ev : Event) : bool :=
  match ev with
  | Launch _ | DeviceCopy => false
  | _ => true
  end.

(** A launch of the gradient-descent optimization kernel. *)
Definition is_optimize (ev : Event) : bool :=
  match ev with
  | Launch DepthSimMapOptimizeGradientDescent => true
  | _ => false
  end.

(** The depth range handed to a similarity launch, when [ev] is one. *)
Definition similarity_range (ev : Event) : option Range :=
  match ev with
  | Launch (VolumeRefineSimilarity _ r) => Some r
  | _ => None
  end.

(** The engine, the process-wide camera cache and the events so far
    (newest first). *)
Record World : Type := mkWorld {
  self : Refine;
  cache : DeviceCache;
  trace : list Event
}.

(** Statements of a member function: a state monad over [World]. *)
Definition M (A : Type) : Type := World -> A * World.

Definition ret {A} (a : A) : M A := fun w => (a, w).

Definition bind {A B} (c : M A) (k : A -> M B) : M B :=
  fun w => let r := c w in k (fst r) (snd r).

Notation "x <- c ;; k" := (bind c (fun x => k))
  (at level 61, c at next level, right associativity).
Notation "c ;; k" := (bind c (fun _ => k))
  (at level 61, right associativity).

Definition this : M Refine := fun w => (self w, w).

Definition emit (ev : Event) : M unit :=
  fun w => (tt, mkWorld (self w) (cache w) (ev :: trace w)).

Definition update (f : Refine -> Refine) : M unit :=
  fun w => (tt, mkWorld (f (self w)) (cache w) (trace w)).

Definition when (b : bool) (c : M unit) : M unit :=
  if b then c else ret tt.

(** [DeviceCache::getInstance().requestCamera(camId, scale, _mp)] *)
Definition request (camId scl : Z) : M DeviceCamera :=
  fun w =>
    let r := requestCamera (cache w) camId scl (_mp (self w)) in
    (fst r, mkWorld (self w) (snd r) (trace w)).

(** Assignments to the contents of one member buffer. *)
Definition write_sgm (d : DepthSimData) (e : Refine) : Refine :=
  mkRefine (_mp e) (_tileParams e) (_refineParams e)
    (overwrite (_sgmDepthPixSizeMap_dmp e) d) (_refinedDepthSimMap_dmp e)
    (_optimizedDepthSimMap_dmp e) (_normalMap_dmp e) (_volumeRefineSim_dmp e)
    (_optImgVariance_dmp e) (_optTmpDepthMap_dmp e).

Definition write_refined (d : DepthSimData) (e : Refine) : Refine :=
  mkRefine (_mp e) (_tileParams e) (_refineParams e)
    (_sgmDepthPixSizeMap_dmp e) (overwrite (_refinedDepthSimMap_dmp e) d)
    (_optimizedDepthSimMap_dmp e) (_normalMap_dmp e) (_volumeRefineSim_dmp e)
    (_optImgVariance_dmp e) (_optTmpDepthMap_dmp e).

Definition write_optimized (d : DepthSimData) (e : Refine) : Refine :=
  mkRefine (_mp e) (_tileParams e) (_refineParams e)
    (_sgmDepthPixSizeMap_dmp e) (_refinedDepthSimMap_dmp e)
    (overwrite (_optimizedDepthSimMap_dmp e) d) (_normalMap_dmp e)
    (_volumeRefineSim_dmp e) (_optImgVariance_dmp e) (_optTmpDepthMap_dmp e).

Definition write_normal (d : NormalData) (e : Refine) : Refine :=
  mkRefine (_mp e) (_tileParams e) (_refineParams e)
    (_sgmDepthPixSizeMap_dmp e) (_refinedDepthSimMap_dmp e)
    (_optimizedDepthSimMap_dmp e) (overwrite (_normalMap_dmp e) d)
    (_volumeRefineSim_dmp e) (_optImgVariance_dmp e) (_optTmpDepthMap_dmp e).

Definition write_volume (d : VolumeData) (e : Refine) : Refine :=
  mkRefine (_mp e) (_tileParams e) (_refineParams e)
    (_sgmDepthPixSizeMap_dmp e) (_refinedDepthSimMap_dmp e)
    (_optimizedDepthSimMap_dmp e) (_normalMap_dmp e)
    (overwrite (_volumeRefineSim_dmp e) d)
    (_optImgVariance_dmp e) (_optTmpDepthMap_dmp e).

Definition write_variance (d : FloatData) (e : Refine) : Refine :=
  mkRefine (_mp e) (_tileParams e) (_refineParams e)
    (_sgmDepthPixSizeMap_dmp e) (_refinedDepthSimMap_dmp e)
    (_optimizedDepthSimMap_dmp e) (_normalMap_dmp e) (_volumeRefineSim_dmp e)
    (overwrite (_optImgVariance_dmp e) d) (_optTmpDepthMap_dmp e).

Definition write_tmp (d : FloatData) (e : Refine) : Refine :=
  mkRefine (_mp e) (_tileParams e) (_refineParams e)
    (_sgmDepthPixSizeMap_dmp e) (_refinedDepthSimMap_dmp e)
    (_optimizedDepthSimMap_dmp e) (_normalMap_dmp e) (_volumeRefineSim_dmp e)
    (_optImgVariance_dmp e) (overwrite (_optTmpDepthMap_dmp e) d).

(** [Refine::exportVolumeInformation(tile, name)] *)
Definition exportVolumeInformation (tile : Tile) (name : string) : M unit :=
  e <- this ;;
  let rp := _refineParams e in
  if negb (exportIntermediateCrossVolumes rp)
     && negb (exportIntermediateVolume9pCsv rp)
  then
    (* nothing to do *)
    ret tt
  else
    (* get tile begin indexes (default no tile) *)
    let tileBeginX := if 1 <? nbTiles tile then range_begin (roi_x (roi tile)) else -1 in
    let tileBeginY := if 1 <? nbTiles tile then range_begin (roi_y (roi tile)) else -1 in
    (* copy device similarity volume to host memory *)
    emit (HostCopyVolume (_volumeRefineSim_dmp e)) ;;
    (* copy device SGM upscale depth/sim map to host memory *)
    emit (HostCopyDepthPixSize (_sgmDepthPixSizeMap_dmp e)) ;;
    when (exportIntermediateCrossVolumes rp)
      (emit (ExportSimilarityVolumeCross (rc tile) name tileBeginX tileBeginY
               (roi tile))) ;;
    when (exportIntermediateVolume9pCsv rp)
      (emit (ExportSimilaritySamplesCSV (rc tile) name tileBeginX tileBeginY)).

(** The body of the loop over [tile.refineTCams]. *)
Definition refineSimilarityOf (tile : Tile) (downscaledRoi : ROI)
    (depthRange : Range) (rcDeviceCamera : DeviceCamera) (tc : Z) : M unit :=
  e <- this ;;
  let rp := _refineParams e in
  (* get T device camera from cache *)
  tcDeviceCamera <- request tc (scale rp) ;;
  emit (Launch (VolumeRefineSimilarity tc depthRange)) ;;
  update (write_volume
    (cuda_volumeRefineSimilarity (_volumeRefineSim_dmp e)
       (_sgmDepthPixSizeMap_dmp e)
       (if useNormalMap rp then Some (_normalMap_dmp e) else None)
       rcDeviceCamera tcDeviceCamera rp depthRange downscaledRoi)).

(** [for (tci = 0; tci < tile.refineTCams.size(); ++tci)] *)
Fixpoint forEach {A} (l : list A) (body : A -> M unit) : M unit :=
  match l with
  | [] => ret tt
  | a :: l' => body a ;; forEach l' body
  end.

(** [Refine::refineAndFuseDepthSimMap(tile)] *)
Definition refineAndFuseDepthSimMap (tile : Tile) : M unit :=
  e <- this ;;
  let rp := _refineParams e in
  (* downscale the region of interest *)
  let downscaledRoi := downscaleROI (roi tile) (downscaleFactor rp) in
  (* get the depth range *)
  let depthRange := mkRange 0 (nth 2 (getSize (_volumeRefineSim_dmp e)) 0) in
  (* initialize the similarity volume at 0 *)
  emit (Launch VolumeInitialize) ;;
  update (write_volume (cuda_volumeInitialize zero_sim)) ;;
  (* get R device camera from cache *)
  rcDeviceCamera <- request (rc tile) (scale rp) ;;
  (* compute for each RcTc each similarity value for each depth to refine *)
  forEach (refineTCams tile)
    (refineSimilarityOf tile downscaledRoi depthRange rcDeviceCamera) ;;
  (* export intermediate volume information (if requested by user) *)
  exportVolumeInformation tile "afterRefine" ;;
  (* retrieve the best depth/sim in the volume *)
  e <- this ;;
  emit (Launch VolumeRefineBestDepth) ;;
  update (write_refined
    (cuda_volumeRefineBestDepth (_refinedDepthSimMap_dmp e)
       (_sgmDepthPixSizeMap_dmp e) (_volumeRefineSim_dmp e) rcDeviceCamera
       rp downscaledRoi)).

(** [Refine::optimizeDepthSimMap(tile)] *)
Definition optimizeDepthSimMap (tile : Tile) : M unit :=
  e <- this ;;
  let rp := _refineParams e in
  (* downscale the region of interest *)
  let downscaledRoi := downscaleROI (roi tile) (downscaleFactor rp) in
  (* get R device camera from cache *)
  rcDeviceCamera <- request (rc tile) (scale rp) ;;
  emit (Launch DepthSimMapOptimizeGradientDescent) ;;
  let out :=
    cuda_depthSimMapOptimizeGradientDescent (_optimizedDepthSimMap_dmp e)
      (_optImgVariance_dmp e) (_optTmpDepthMap_dmp e)
      (_sgmDepthPixSizeMap_dmp e) (_refinedDepthSimMap_dmp e)
      rcDeviceCamera rp downscaledRoi in
  (* the kernel writes the optimized map and its two scratch buffers *)
  update (fun e => write_tmp (snd out) (write_variance (snd (fst out))
                     (write_optimized (fst (fst out)) e))).

(** [Refine::refineRc(tile, in_sgmDepthSimMap_dmp, in_sgmNormalMap_dmp)] *)
Definition refineRc (tile : Tile) (in_sgmDepthSimMap_dmp : DepthSimMap)
    (in_sgmNormalMap_dmp : NormalMap) : M unit :=
  e <- this ;;
  let rp := _refineParams e in
  (* compute upscaled SGM depth/pixSize map *)
  (* downscale the region of interest *)
  let downscaledRoi := downscaleROI (roi tile) (downscaleFactor rp) in
  (* get R device camera from cache *)
  rcDeviceCamera <- request (rc tile) (scale rp) ;;
  (* upscale SGM depth/sim map and filter masked pixels (alpha) *)
  emit (Launch DepthSimMapUpscaleAndFilter) ;;
  update (write_sgm
    (cuda_depthSimMapUpscaleAndFilter (_sgmDepthPixSizeMap_dmp e)
       in_sgmDepthSimMap_dmp rcDeviceCamera rp downscaledRoi)) ;;
  (* export intermediate depth/sim map (if requested by user) *)
  e <- this ;;
  when (exportIntermediateDepthSimMaps rp)
    (emit (WriteDepthSimMap (rc tile) (roi tile) (_sgmDepthPixSizeMap_dmp e)
             (scale rp) (stepXY rp) "_sgmUpscaled")) ;;
  (* compute pixSize to replace similarity *)
  emit (Launch DepthSimMapComputePixSize) ;;
  update (write_sgm
    (cuda_depthSimMapComputePixSize (_sgmDepthPixSizeMap_dmp e)
       rcDeviceCamera rp downscaledRoi)) ;;
  when (useNormalMap rp && getBuffer in_sgmNormalMap_dmp)
    (emit (Launch NormalMapUpscale) ;;
     update (write_normal
       (cuda_normalMapUpscale (_normalMap_dmp e) in_sgmNormalMap_dmp
          downscaledRoi))) ;;
  (* refine and fuse depth/sim map *)
  (if useRefineFuse rp
   then
     (* refine and fuse with volume strategy *)
     refineAndFuseDepthSimMap tile
   else
     e <- this ;;
     emit (Launch DepthSimMapCopyDepthOnly) ;;
     update (write_refined
       (cuda_depthSimMapCopyDepthOnly (_sgmDepthPixSizeMap_dmp e) one_f))) ;;
  (* export intermediate depth/sim map (if requested by user) *)
  e <- this ;;
  when (exportIntermediateDepthSimMaps rp)
    (emit (WriteDepthSimMap (rc tile) (roi tile) (_refinedDepthSimMap_dmp e)
             (scale rp) (stepXY rp) "_refinedFused")) ;;
  (* optimize depth/sim map *)
  if useColorOptimization rp && (0 <? optimizationNbIterations rp)
  then optimizeDepthSimMap tile
  else
    e <- this ;;
    emit DeviceCopy ;;
    update (fun e' => mkRefine (_mp e') (_tileParams e') (_refineParams e')
      (_sgmDepthPixSizeMap_dmp e') (_refinedDepthSimMap_dmp e')
      (copyFrom (_optimizedDepthSimMap_dmp e') (_refinedDepthSimMap_dmp e))
      (_normalMap_dmp e') (_volumeRefineSim_dmp e') (_optImgVariance_dmp e')
      (_optTmpDepthMap_dmp e')).

(** The world left by a call. *)
Definition run (c : M unit) (w : World) : World := snd (c w).

(** The operations of an engine: the public [refineRc] and the three
    member functions it is made of. *)
Inductive Operation : Type :=
| OpRefineRc (tile : Tile) (in_sgmDepthSimMap_dmp : DepthSimMap)
    (in_sgmNormalMap_dmp : NormalMap)
| OpRefineAndFuse (tile : Tile)
| OpOptimize (tile : Tile)
| OpExportVolume (tile : Tile) (name : string).

Definition perform (op : Operation) : M unit :=
  match op with
  | OpRefineRc t a b => refineRc t a b
  | OpRefineAndFuse t => refineAndFuseDepthSimMap t
  | OpOptimize t => optimizeDepthSimMap t
  | OpExportVolume t n => exportVolumeInformation t n
  end.

(** What [allocate] fixes of a buffer: pointer, sizes, pitch, element
    size. *)
Definition geometry {D} (b : CudaDeviceMemoryPitched D)
  : bool * list Z * Z * Z :=
  (getBuffer b, getSize b, getPitch b, sizeofType b).

(** Everything of an engine except the contents of its buffers. *)
Definition layout (e : Refine) :=
  (_mp e, _tileParams e, _refineParams e,
   geometry (_sgmDepthPixSizeMap_dmp e), geometry (_refinedDepthSimMap_dmp e),
   geometry (_optimizedDepthSimMap_dmp e), geometry (_normalMap_dmp e),
   geometry (_volumeRefineSim_dmp e), geometry (_optImgVariance_dmp e),
   geometry (_optTmpDepthMap_dmp e)).

(** The depth extent (third dimension) of the similarity volume. *)
Definition volumeDepthExtent (e : Refine) : Z :=
  nth 2 (getSize (_volumeRefineSim_dmp e)) 0.

(** An engine whose parameters are replaced (the buffers are kept). *)
Definition with_params (e : Refine) (rp : RefineParams) : Refine :=
  mkRefine (_mp e) (_tileParams e) rp
    (_sgmDepthPixSizeMap_dmp e) (_refinedDepthSimMap_dmp e)
    (_optimizedDepthSimMap_dmp e) (_normalMap_dmp e) (_volumeRefineSim_dmp e)
    (_optImgVariance_dmp e) (_optTmpDepthMap_dmp e).

(** A world without its diagnostics: export flags cleared, trace
    dropped. *)
Definition quiet (w : World) : World :=
  mkWorld (with_params (self w)
             (with_export_flags (_refineParams (self w)) false false false))
          (cache w) [].

(** The numeric state of a world: every device buffer and the cache. *)
Definition numeric_state (w : World)
  : DepthSimMap * DepthSimMap * DepthSimMap * NormalMap * SimVolume
    * FloatMap * FloatMap * DeviceCache :=
  let e := self w in
  (_sgmDepthPixSizeMap_dmp e, _refinedDepthSimMap_dmp e,
   _optimizedDepthSimMap_dmp e, _normalMap_dmp e, _volumeRefineSim_dmp e,
   _optImgVariance_dmp e, _optTmpDepthMap_dmp e, cache w).

(** The kernels read the numeric parameters only: replacing the export
    flags of the parameter block does not change what a kernel writes. *)
Class KernelsIgnoreExportFlags : Prop := {
  upscale_ignores : forall o i c rp r a b d,
    cuda_depthSimMapUpscaleAndFilter o i c (with_export_flags rp a b d) r
    = cuda_depthSimMapUpscaleAndFilter o i c rp r;
  pixsize_ignores : forall o c rp r a b d,
    cuda_depthSimMapComputePixSize o c (with_export_flags rp a b d) r
    = cuda_depthSimMapComputePixSize o c rp r;
  similarity_ignores : forall v s n c t rp g r a b d,
    cuda_volumeRefineSimilarity v s n c t (with_export_flags rp a b d) g r
    = cuda_volumeRefineSimilarity v s n c t rp g r;
  bestdepth_ignores : forall o s v c rp r a b d,
    cuda_volumeRefineBestDepth o s v c (with_export_flags rp a b d) r
    = cuda_volumeRefineBestDepth o s v c rp r;
  optimize_ignores : forall o v t s f c rp r a b d,
    cuda_depthSimMapOptimizeGradientDescent o v t s f c
      (with_export_flags rp a b d) r
    = cuda_depthSimMapOptimizeGradientDescent o v t s f c rp r
}.

(** ** Phases of the pipeline, traces and byte totals *)

(** Everything of an engine except the contents of the volume. *)
Definition outside_volume (e : Refine) :=
  (layout e, _sgmDepthPixSizeMap_dmp e, _refinedDepthSimMap_dmp e,
   _optimizedDepthSimMap_dmp e, _normalMap_dmp e, _optImgVariance_dmp e,
   _optTmpDepthMap_dmp e).

(** The events [exportVolumeInformation] leaves, newest first. *)
Definition volumeExportEvents (tile : Tile) (name : string) (e : Refine)
  : list Event :=
  let rp := _refineParams e in
  let bx := if 1 <? nbTiles tile then range_begin (roi_x (roi tile)) else -1 in
  let by_ := if 1 <? nbTiles tile then range_begin (roi_y (roi tile)) else -1 in
  if negb (exportIntermediateCrossVolumes rp)
     && negb (exportIntermediateVolume9pCsv rp)
  then []
  else
    (if exportIntermediateVolume9pCsv rp
     then [ExportSimilaritySamplesCSV (rc tile) name bx by_] else [])
    ++ (if exportIntermediateCrossVolumes rp
        then [ExportSimilarityVolumeCross (rc tile) name bx by_ (roi tile)]
        else [])
    ++ [HostCopyDepthPixSize (_sgmDepthPixSizeMap_dmp e);
        HostCopyVolume (_volumeRefineSim_dmp e)].

(** The three phases of [refineAndFuseDepthSimMap]: initialize and
    request the reference camera, loop, export and extract. *)
Definition fuseStart (tile : Tile) (w : World) : World :=
  let rp := _refineParams (self w) in
  mkWorld (write_volume (cuda_volumeInitialize zero_sim) (self w))
    (snd (requestCamera (cache w) (rc tile) (scale rp) (_mp (self w))))
    (Launch VolumeInitialize :: trace w).

(** The reference camera handle the fuse phase obtains from the cache. *)
Definition fuseCamera (tile : Tile) (w : World) : DeviceCamera :=
  fst (requestCamera (cache w) (rc tile) (scale (_refineParams (self w)))
         (_mp (self w))).

(** The downscaled region of interest of the fuse phase. *)
Definition fuseRoi (tile : Tile) (w : World) : ROI :=
  downscaleROI (roi tile) (downscaleFactor (_refineParams (self w))).

(** Modelled from the spec: [cuda_volumeRefineSimilarity] is a kernel
    outside the sources.  The spec says that for each target camera it
    computes a per-pixel, per-depth-hypothesis matching score against the
    reference camera and adds it into the shared volume (summation, not
    sequential dependent logic), and that the cache maps a (camera id,
    working scale) pair to the resident camera data.  [similarityScore]
    is the score of one target camera, computed from the inputs of the
    kernel other than the volume; [accumulate] is the addition of
    [TSimRefine]. *)
Class SimilaritySummation : Type := {
  similarityScore :
    DepthSimMap -> option NormalMap -> DeviceCamera -> DeviceCamera
    -> RefineParams -> Range -> ROI -> VolumeData;
  accumulate : Z -> Z -> Z
}.

(** Modelled from the spec: the kernel adds the score to every cell of
    the volume; the addition is taken as exact, so that two scores added
    to a cell in either order give the same cell (rounding of the
    additions is left out); and a request returns the camera of its
    (id, scale) pair whatever else the cache holds. *)
Class SimilaritySummationLaws (S : SimilaritySummation) : Prop := {
  similarity_added : forall v s n c t rp g r x y z,
    cuda_volumeRefineSimilarity v s n c t rp g r x y z
    = accumulate (contents v x y z) (similarityScore s n c t rp g r x y z);
  accumulate_exchange : forall v a b,
    accumulate (accumulate v a) b = accumulate (accumulate v b) a;
  request_by_key : forall c c' id s mp,
    fst (requestCamera c id s mp) = fst (requestCamera c' id s mp)
}.

(** The cell (x, y, z) of the volume the refine-and-fuse phase builds for
    [tile] in the world [w]: zero, to which the score of each target
    camera is added in the order of [tile.refineTCams]. *)
Definition fusedSimilarity {S : SimilaritySummation} (tile : Tile)
    (w : World) (x y z : Z) : Z :=
  let e := self w in
  let rp := _refineParams e in
  fold_left
    (fun cell tc =>
       accumulate cell
         (similarityScore (_sgmDepthPixSizeMap_dmp e)
            (if useNormalMap rp then Some (_normalMap_dmp e) else None)
            (fuseCamera tile w)
            (fst (requestCamera (cache w) tc (scale rp) (_mp e)))
            rp (mkRange 0 (volumeDepthExtent e)) (fuseRoi tile w) x y z))
    (refineTCams tile) zero_sim.

(** The world after the loop over [tile.refineTCams]. *)
Definition fuseLoop (tile : Tile) (w : World) : World :=
  run (forEach (refineTCams tile)
         (refineSimilarityOf tile (fuseRoi tile w)
            (mkRange 0 (volumeDepthExtent (self w))) (fuseCamera tile w)))
      (fuseStart tile w).

(** The export of the volume and the extraction of the best depth, from
    the world [wl] the loop left. *)
Definition fuseFinish (tile : Tile) (cam : DeviceCamera) (rp : RefineParams)
    (droi : ROI) (wl : World) : World :=
  let we := run (exportVolumeInformation tile "afterRefine") wl in
  mkWorld
    (write_refined
       (cuda_volumeRefineBestDepth (_refinedDepthSimMap_dmp (self we))
          (_sgmDepthPixSizeMap_dmp (self we)) (_volumeRefineSim_dmp (self we))
          cam rp droi)
       (self we))
    (cache we) (Launch VolumeRefineBestDepth :: trace we).

(** [optimizeDepthSimMap] as a function of the world. *)
Definition optimizeWorld (tile : Tile) (w : World) : World :=
  let e := self w in
  let rp := _refineParams e in
  let r := requestCamera (cache w) (rc tile) (scale rp) (_mp e) in
  let out :=
    cuda_depthSimMapOptimizeGradientDescent (_optimizedDepthSimMap_dmp e)
      (_optImgVariance_dmp e) (_optTmpDepthMap_dmp e)
      (_sgmDepthPixSizeMap_dmp e) (_refinedDepthSimMap_dmp e) (fst r) rp
      (downscaleROI (roi tile) (downscaleFactor rp)) in
  mkWorld
    (write_tmp (snd out) (write_variance (snd (fst out))
       (write_optimized (fst (fst out)) e)))
    (snd r) (Launch DepthSimMapOptimizeGradientDescent :: trace w).

(** The three phases of [refineRc]; first the upscale phase, the block
    that ends with the upscaling of the normal map. *)
Definition upscalePhase (tile : Tile) (inS : DepthSimMap) (inN : NormalMap)
    (w : World) : World :=
  let e := self w in
  let rp := _refineParams e in
  let droi := downscaleROI (roi tile) (downscaleFactor rp) in
  let r := requestCamera (cache w) (rc tile) (scale rp) (_mp e) in
  let e1 := write_sgm (cuda_depthSimMapUpscaleAndFilter
                         (_sgmDepthPixSizeMap_dmp e) inS (fst r) rp droi) e in
  let t1 := Launch DepthSimMapUpscaleAndFilter :: trace w in
  let t2 := if exportIntermediateDepthSimMaps rp
            then WriteDepthSimMap (rc tile) (roi tile)
                   (_sgmDepthPixSizeMap_dmp e1) (scale rp) (stepXY rp)
                   "_sgmUpscaled" :: t1
            else t1 in
  let e2 := write_sgm (cuda_depthSimMapComputePixSize
                         (_sgmDepthPixSizeMap_dmp e1) (fst r) rp droi) e1 in
  let t3 := Launch DepthSimMapComputePixSize :: t2 in
  if useNormalMap rp && getBuffer inN
  then mkWorld (write_normal (cuda_normalMapUpscale (_normalMap_dmp e2) inN droi) e2)
         (snd r) (Launch NormalMapUpscale :: t3)
  else mkWorld e2 (snd r) t3.

(** The refine-and-fuse phase, or the copy of the depth when it is
    disabled. *)
Definition fusePhase (tile : Tile) (w : World) : World :=
  if useRefineFuse (_refineParams (self w))
  then run (refineAndFuseDepthSimMap tile) w
  else mkWorld
         (write_refined
            (cuda_depthSimMapCopyDepthOnly (_sgmDepthPixSizeMap_dmp (self w)) one_f)
            (self w))
         (cache w) (Launch DepthSimMapCopyDepthOnly :: trace w).

(** The export of the refined map and the optimization phase, or the
    device copy when it is disabled. *)
Definition optimizePhase (tile : Tile) (w : World) : World :=
  let rp := _refineParams (self w) in
  let w1 := if exportIntermediateDepthSimMaps rp
            then mkWorld (self w) (cache w)
                   (WriteDepthSimMap (rc tile) (roi tile)
                      (_refinedDepthSimMap_dmp (self w)) (scale rp) (stepXY rp)
                      "_refinedFused" :: trace w)
            else w in
  let e := self w1 in
  if useColorOptimization rp && (0 <? optimizationNbIterations rp)
  then optimizeWorld tile w1
  else mkWorld
         (mkRefine (_mp e) (_tileParams e) (_refineParams e)
            (_sgmDepthPixSizeMap_dmp e) (_refinedDepthSimMap_dmp e)
            (copyFrom (_optimizedDepthSimMap_dmp e) (_refinedDepthSimMap_dmp e))
            (_normalMap_dmp e) (_volumeRefineSim_dmp e)
            (_optImgVariance_dmp e) (_optTmpDepthMap_dmp e))
         (cache w1) (DeviceCopy :: trace w1).

(** The events a call may add, for an engine with parameters [rp] and a
    volume of depth extent [z]: similarity launches over the range
    [0, z), the optimization kernel only when it is enabled with a
    positive iteration count, and export work only under its flag. *)
Definition allowed (rp : RefineParams) (z : Z) (ev : Event) : bool :=
  match ev with
  | Launch (VolumeRefineSimilarity _ r) =>
      (range_begin r =? 0) && (range_end r =? z)
  | Launch DepthSimMapOptimizeGradientDescent =>
      useColorOptimization rp && (0 <? optimizationNbIterations rp)
  | Launch _ => true
  | DeviceCopy => true
  | WriteDepthSimMap _ _ _ _ _ _ => exportIntermediateDepthSimMaps rp
  | HostCopyVolume _ | HostCopyDepthPixSize _ =>
      exportIntermediateCrossVolumes rp || exportIntermediateVolume9pCsv rp
  | ExportSimilarityVolumeCross _ _ _ _ _ => exportIntermediateCrossVolumes rp
  | ExportSimilaritySamplesCSV _ _ _ _ => exportIntermediateVolume9pCsv rp
  end.

(** The trace [t] is [base] with events that satisfy [P] added. *)
Inductive grows (P : Event -> Prop) (base : list Event) : list Event -> Prop :=
| grows_none : grows P base base
| grows_emit ev t : P ev -> grows P base t -> grows P base (ev :: t).

(** [ev] is allowed by the parameters and the volume of the engine of
    [w]. *)
Definition allowed_in (w : World) (ev : Event) : Prop :=
  allowed (_refineParams (self w)) (volumeDepthExtent (self w)) ev = true.

(** A similarity launch of [ev], if it is one, is over [0, z). *)
Definition range_ok (z : Z) (ev : Event) : Prop :=
  forall r, similarity_range ev = Some r -> r = mkRange 0 z.

(** The seven buffers of a constructed engine, as bytes on the device. *)
Definition bufferBytes (e : Refine) : list Z :=
  [ exactPadded (_sgmDepthPixSizeMap_dmp e);
    exactPadded (_refinedDepthSimMap_dmp e);
    exactPadded (_optimizedDepthSimMap_dmp e);
    exactPadded (_normalMap_dmp e);
    exactPadded (_volumeRefineSim_dmp e);
    exactPadded (_optImgVariance_dmp e);
    exactPadded (_optTmpDepthMap_dmp e) ].

(** A configuration whose [int] computations stay in range: a positive
    downscale factor, tile dimensions that are not negative, and a number
    of depths [2 * halfNbDepths + 1] that fits in an [int]. *)
Definition sane (tp : TileParams) (rp : RefineParams) : Prop :=
  0 < downscaleFactor rp
  /\ 0 <= bufferWidth tp < 2 ^ 31
  /\ 0 <= bufferHeight tp < 2 ^ 31
  /\ 0 <= halfNbDepths rp < 2 ^ 30.

(** [rp'] and [tp'] are [rp] and [tp] with the tile dimensions and the
    number of depths not decreased, and nothing else changed. *)
Definition grown (tp : TileParams) (rp : RefineParams)
    (tp' : TileParams) (rp' : RefineParams) : Prop :=
  bufferWidth tp <= bufferWidth tp'
  /\ bufferHeight tp <= bufferHeight tp'
  /\ halfNbDepths rp <= halfNbDepths rp'
  /\ rp' = with_halfNbDepths rp (halfNbDepths rp').

(** The logical bytes of the seven buffers, without wrap-around. *)
Definition logicalBytes (e : Refine) : Z :=
  exactUnpadded (_sgmDepthPixSizeMap_dmp e)
  + exactUnpadded (_refinedDepthSimMap_dmp e)
  + exactUnpadded (_optimizedDepthSimMap_dmp e)
  + exactUnpadded (_normalMap_dmp e)
  + exactUnpadded (_volumeRefineSim_dmp e)
  + exactUnpadded (_optImgVariance_dmp e)
  + exactUnpadded (_optTmpDepthMap_dmp e).

(** ** The kernel schedule *)

(** The kernels launched in a trace, newest first like the trace. *)
Definition launches (t : list Event) : list Kernel :=
  flat_map (fun ev => match ev with Launch k => [k] | _ => [] end) t.

(** The kernels of the three phases of [refineRc], oldest first, for
    parameters [rp], a tile, the input normal map and a volume of depth
    extent [z]. *)
Definition upscaleSchedule (rp : RefineParams) (inN : NormalMap)
  : list Kernel :=
  [DepthSimMapUpscaleAndFilter; DepthSimMapComputePixSize]
  ++ (if useNormalMap rp && getBuffer inN then [NormalMapUpscale] else []).

Definition fuseSchedule (rp : RefineParams) (tile : Tile) (z : Z)
  : list Kernel :=
  if useRefineFuse rp
  then VolumeInitialize
       :: map (fun tc => VolumeRefineSimilarity tc (mkRange 0 z))
            (refineTCams tile)
       ++ [VolumeRefineBestDepth]
  else [DepthSimMapCopyDepthOnly].

Definition optimizeSchedule (rp : RefineParams) : list Kernel :=
  if useColorOptimization rp && (0 <? optimizationNbIterations rp)
  then [DepthSimMapOptimizeGradientDescent]
  else [].

Definition kernelSchedule (rp : RefineParams) (tile : Tile)
    (inN : NormalMap) (z : Z) : list Kernel :=
  upscaleSchedule rp inN ++ fuseSchedule rp tile z ++ optimizeSchedule rp.

End Engine.

End DepthMap.

(* ================================================================== *)
(** * A reference platform *)
(* ================================================================== *)

(** One concrete device, host library and kernel set, on which the engine
    runs by computation: a device of 4 GiB that pads rows to 512 bytes,
    the usual rounding-up division, and kernels small enough to follow by
    hand. *)
Module Reference.

Import DepthMap.

Definition capacity : Z := 2 ^ 32.

Definition pitch512 (n : Z) : Z := (n + 511) / 512 * 512.

Definition malloc (inUse n : Z) : option Z :=
  if (0 <=? n) && (inUse + n <=? capacity) then Some (inUse + n) else None.

#[export] Instance device : CudaRuntime := {
  DeviceMemory := Z;
  bytesInUse := fun m => m;
  rowPitch := pitch512;
  deviceMalloc := malloc
}.

(** The quotient rounded up, with the truncating [/] and [%] of C++. *)
Definition ceil_div (x y : Z) : Z :=
  if Bool.eqb (0 <=? x) (0 <=? y)
  then Z.quot x y + (if Z.rem x y =? 0 then 0 else 1)
  else Z.quot x y.

Definition range_div (r : Range) (f : Z) : Range :=
  mkRange (Z.quot (range_begin r) f) (ceil_div (range_end r) f).

#[export] Instance host : HostUtils := {
  MultiViewParams := unit;
  divideRoundUp := ceil_div;
  downscaleROI := fun r f => mkROI (range_div (roi_x r) f) (range_div (roi_y r) f);
  sizeof_TSimRefine := 4
}.

(** A camera handle is the requested (id, scale); the cache lists the
    requests.  The kernels copy or count. *)
#[export] Instance kernels : DeviceKernels := {
  DeviceCamera := Z * Z;
  DeviceCache := list (Z * Z);
  requestCamera := fun c id s _ => ((id, s), (id, s) :: c);
  cuda_depthSimMapUpscaleAndFilter := fun _ i _ _ _ => contents i;
  cuda_depthSimMapComputePixSize := fun o _ _ _ =>
    fun x y => (fst (contents o x y), 7);
  cuda_normalMapUpscale := fun _ i _ => contents i;
  cuda_volumeRefineSimilarity := fun v _ _ _ t _ _ _ =>
    fun x y z => contents v x y z + fst t;
  cuda_volumeRefineBestDepth := fun _ s v _ _ _ =>
    fun x y => (fst (contents s x y), contents v x y 0);
  cuda_depthSimMapOptimizeGradientDescent := fun _ v t _ f _ _ _ =>
    (fun x y => (fst (contents f x y) + 1, snd (contents f x y)),
     contents v, contents t)
}.

(** The score of a target camera is its id, added as integers. *)
#[export] Instance summation : SimilaritySummation := {
  similarityScore := fun _ _ _ t _ _ _ => fun _ _ _ => fst t;
  accumulate := Z.add
}.

(** A 16x16 tile buffer at full scale, refined over 2*0+1 hypotheses with
    a negative iteration count. *)
Definition tile16 : TileParams := mkTileParams 16 16.

Definition degenerateParams : RefineParams :=
  mkRefineParams 1 1 0 true true false (-1) false false false.

(** A working scale of zero, and a tile buffer whose first map alone
    exceeds the device. *)
Definition zeroScaleParams : RefineParams :=
  mkRefineParams 0 1 2 true true true 3 false false false.

Definition hugeTile : TileParams := mkTileParams 32768 32768.

(** The same buffer, five hypotheses, every phase and no export. *)
Definition plainParams : RefineParams :=
  mkRefineParams 1 1 2 true true true 3 false false false.

(** An input depth/similarity map and normal map of the coarse stage. *)
Definition coarseMap : DepthSimMap :=
  mkBuffer true [16; 16] 512 sizeof_float2 (fun x y => (x + 16 * y, 3)).

Definition coarseNormals : NormalMap :=
  mkBuffer true [16; 16] 512 sizeof_float3 (fun x y => (x, y, 1)).

Definition tileA : Tile :=
  mkTile 0 (mkROI (mkRange 0 16) (mkRange 0 16)) [1; 2; 3] 1.

(** The same with the refine-and-fuse phase switched off, with the
    optimization switched off, and with every export switched on. *)
Definition passThroughParams : RefineParams :=
  mkRefineParams 1 1 2 false true true 3 false false false.

Definition noOptimizationParams : RefineParams :=
  mkRefineParams 1 1 2 true false true 3 false false false.

Definition exportParams : RefineParams :=
  mkRefineParams 1 1 2 true true true 3 true true true.

(** A larger tile buffer and more depth hypotheses. *)
Definition tile32 : TileParams := mkTileParams 32 32.

Definition deeperParams : RefineParams := with_halfNbDepths plainParams 4.

(** The world of the engine for [rp], an empty cache and an empty trace. *)
Definition world (rp : RefineParams) : World :=
  mkWorld (engineOf tt tile16 rp) [] [].


(** A tile without target cameras, and an input normal map that was
    never allocated. *)
Definition tileAlone : Tile :=
  mkTile 0 (mkROI (mkRange 0 16) (mkRange 0 16)) [] 1.

Definition noNormals : NormalMap :=
  unallocated 2 sizeof_float3 (fun _ _ => (0, 0, 0)).

(** The engine built for [rp] on the empty device, if the device accepts. *)
Definition engine (rp : RefineParams) : option (Refine * Z) :=
  Refine_ctor tt tile16 rp 0.

(** The world in which a freshly built engine meets an empty cache. *)
Definition fresh (rp : RefineParams) : option World :=
  match engine rp with
  | Some (e, _) => Some (mkWorld e [] [])
  | None => None
  end.

End Reference.

(* ================================================================== *)
(** * Properties of the intrinsics transforms *)
(* ================================================================== *)

Module IntrinsicsFacts.

Import Intrinsics.

(** In binary64 the sum 0.1 + 0.5 is rounded, and subtracting 0.5 again
    does not give 0.1 back. *)
Lemma roundtrip_binary64_value :
  ima2cam unit_camera (cam2ima unit_camera tenth_point)
  = mkVec2 0x1.9999999999998p-4%float 0x1.9999999999998p-4%float.
Proof. vm_compute. reflexivity. Qed.

(** With a principal point at 2^70 the point (1, 1) is absorbed by the
    sum: both compositions return (0, 0). *)
Lemma roundtrip_binary64_absorbed :
  ima2cam far_camera (cam2ima far_camera (mkVec2 1%float 1%float))
  = mkVec2 0%float 0%float
  /\ cam2ima far_camera (ima2cam far_camera (mkVec2 1%float 1%float))
     = mkVec2 0%float 0%float.
Proof. split; vm_compute; reflexivity. Qed.

(** C10, as stated, fails on the code: for the 1x1 camera with unit scale
    (both scale components nonzero) and the point (0.1, 0.1), neither
    composition returns the point in [double] arithmetic, neither as the
    same number ([==] of C++) nor as the same bits. *)
Lemma transforms_not_inverse_binary64 :
  _scale unit_camera = mkVec2 1%float 1%float
  /\ PrimFloat.eqb (v0 (ima2cam unit_camera (cam2ima unit_camera tenth_point)))
                   (v0 tenth_point) = false
  /\ PrimFloat.eqb (v0 (cam2ima unit_camera (ima2cam unit_camera tenth_point)))
                   (v0 tenth_point) = false
  /\ ima2cam unit_camera (cam2ima unit_camera tenth_point) <> tenth_point
  /\ cam2ima unit_camera (ima2cam unit_camera tenth_point) <> tenth_point.
Proof.
  split; [reflexivity|].
  split; [vm_compute; reflexivity|].
  split; [vm_compute; reflexivity|].
  split; intro E.
  - apply (f_equal (fun p => PrimFloat.eqb (v0 p) tenth)) in E.
    vm_compute in E. discriminate E.
  - apply (f_equal (fun p => PrimFloat.eqb (v0 p) tenth)) in E.
    vm_compute in E. discriminate E.
Qed.

(** C10, amended: in exact (rational) arithmetic, for nonzero scale
    components, [ima2cam] and [cam2ima] are mutually inverse. *)
Theorem transforms_inverse_exact (I : IntrinsicsScaleOffset Q) (p : Vec2 Q) :
  ~ (v0 (_scale I) == 0)%Q ->
  ~ (v1 (_scale I) == 0)%Q ->
  veq (ima2cam I (cam2ima I p)) p /\ veq (cam2ima I (ima2cam I p)) p.
Proof.
  intros H0 H1. unfold veq, ima2cam, cam2ima, vadd, cwiseProduct,
    getPrincipalPoint; simpl.
  repeat split; field; assumption.
Qed.

Lemma transforms_inverse_exact_witness :
  let I := mkIntrinsics 640 480 (mkVec2 (3 # 1) (7 # 2)) (mkVec2 (1 # 4) (0 # 1)) in
  let p := mkVec2 (1 # 10) (2 # 3) in
  veq (ima2cam I (cam2ima I p)) p /\ veq (cam2ima I (ima2cam I p)) p.
Proof.
  intros I p. apply (transforms_inverse_exact I p); simpl; discriminate.
Defined.

End IntrinsicsFacts.

(* ================================================================== *)
(** * Machine arithmetic *)
(* ================================================================== *)

Module ArithFacts.

Import DepthMap.

Lemma wrap_size_small z : 0 <= z < 2 ^ 64 -> wrap_size z = z.
Proof. intros Hz. unfold wrap_size. apply Z.mod_small. exact Hz. Qed.

Lemma wrap_size_range z : 0 <= wrap_size z < 2 ^ 64.
Proof. unfold wrap_size. apply Z.mod_pos_bound. lia. Qed.

Lemma size_of_int_nonneg z : 0 <= z < 2 ^ 31 -> size_of_int z = z.
Proof. intros Hz. unfold size_of_int. apply Z.mod_small. lia. Qed.

Lemma size_of_int_range z : 0 <= size_of_int z < 2 ^ 64.
Proof. unfold size_of_int. apply Z.mod_pos_bound. lia. Qed.

Lemma wrap_int_small z : - 2 ^ 31 <= z < 2 ^ 31 -> wrap_int z = z.
Proof.
  intros Hz. unfold wrap_int.
  rewrite Z.mod_small by lia. lia.
Qed.

Lemma double_of_size_t_unfold n :
  double_of_size_t n
  = if n <? 2 ^ 53 then n else round_at (Z.log2 n - 52) n.
Proof. reflexivity. Qed.

Lemma round_at_bounds e n :
  0 <= e -> 0 <= n ->
  n / 2 ^ e * 2 ^ e <= round_at e n <= (n / 2 ^ e + 1) * 2 ^ e.
Proof.
  intros He Hn. unfold round_at.
  assert (Hp : 0 < 2 ^ e) by (apply Z.pow_pos_nonneg; lia).
  destruct (_ <? _); [nia|].
  destruct (_ <? _); [nia|].
  destruct (Z.even _); nia.
Qed.

Lemma round_at_monotone e n m :
  0 <= e -> 0 <= n <= m -> round_at e n <= round_at e m.
Proof.
  intros He Hnm.
  assert (Hp : 0 < 2 ^ e) by (apply Z.pow_pos_nonneg; lia).
  assert (Hq : n / 2 ^ e <= m / 2 ^ e) by (apply Z.div_le_mono; lia).
  destruct (Z.eq_dec (n / 2 ^ e) (m / 2 ^ e)) as [E|NE].
  - assert (Hr : n mod 2 ^ e <= m mod 2 ^ e).
    { pose proof (Z.div_mod n (2 ^ e)). pose proof (Z.div_mod m (2 ^ e)). nia. }
    unfold round_at. rewrite E.
    apply Z.mul_le_mono_nonneg_r; [lia|].
    repeat match goal with
           | |- context [?a <? ?b] => destruct (Z.ltb_spec a b)
           end; destruct (Z.even (m / 2 ^ e)); lia.
  - pose proof (round_at_bounds e n He ltac:(lia)).
    pose proof (round_at_bounds e m He ltac:(lia)).
    nia.
Qed.

(** Within one binade the rounding stays between the two powers of two. *)
Lemma round_at_binade n :
  2 ^ 53 <= n ->
  2 ^ Z.log2 n <= round_at (Z.log2 n - 52) n <= 2 ^ (Z.log2 n + 1).
Proof.
  intros Hn.
  assert (Hl : 53 <= Z.log2 n).
  { apply Z.log2_le_pow2; lia. }
  pose proof (Z.log2_spec n ltac:(lia)) as [Hlo Hhi].
  set (e := Z.log2 n - 52) in *.
  assert (He : 0 <= e) by lia.
  assert (Hp : 0 < 2 ^ e) by (apply Z.pow_pos_nonneg; lia).
  assert (E1 : 2 ^ Z.log2 n = 2 ^ 52 * 2 ^ e).
  { rewrite <- Z.pow_add_r by lia. f_equal. lia. }
  assert (E2 : 2 ^ Z.succ (Z.log2 n) = 2 ^ 53 * 2 ^ e).
  { rewrite <- Z.pow_add_r by lia. f_equal. lia. }
  replace (Z.log2 n + 1) with (Z.succ (Z.log2 n)) by lia.
  rewrite E1, E2 in *.
  pose proof (round_at_bounds e n He ltac:(lia)) as [B1 B2].
  assert (Q1 : 2 ^ 52 <= n / 2 ^ e).
  { apply Z.div_le_lower_bound; lia. }
  assert (Q2 : n / 2 ^ e < 2 ^ 53).
  { apply Z.div_lt_upper_bound; lia. }
  split.
  - eapply Z.le_trans; [|exact B1]. apply Z.mul_le_mono_nonneg_r; lia.
  - eapply Z.le_trans; [exact B2|]. apply Z.mul_le_mono_nonneg_r; lia.
Qed.

(** The conversion to [double] does not decrease with its argument. *)
Lemma double_of_size_t_monotone n m :
  0 <= n <= m -> double_of_size_t n <= double_of_size_t m.
Proof.
  intros Hnm. rewrite !double_of_size_t_unfold.
  destruct (Z.ltb_spec n (2 ^ 53)) as [Hn|Hn];
    destruct (Z.ltb_spec m (2 ^ 53)) as [Hm|Hm]; try lia.
  - pose proof (round_at_binade m Hm) as [B _].
    assert (2 ^ 53 <= 2 ^ Z.log2 m).
    { apply Z.pow_le_mono_r; [lia|]. apply Z.log2_le_pow2; lia. }
    lia.
  - assert (Hl : Z.log2 n <= Z.log2 m) by (apply Z.log2_le_mono; lia).
    destruct (Z.eq_dec (Z.log2 n) (Z.log2 m)) as [E|NE].
    + rewrite E. apply round_at_monotone; [|lia].
      assert (53 <= Z.log2 m) by (apply Z.log2_le_pow2; lia). lia.
    + pose proof (round_at_binade n Hn) as [_ B1].
      pose proof (round_at_binade m Hm) as [B2 _].
      assert (2 ^ (Z.log2 n + 1) <= 2 ^ Z.log2 m).
      { apply Z.pow_le_mono_r; lia. }
      lia.
Qed.

Lemma megabytes_monotone n m :
  0 <= n <= m -> (megabytes n <= megabytes m)%Q.
Proof.
  intros Hnm. unfold megabytes, Qle; simpl.
  apply Z.mul_le_mono_nonneg_r; [lia|].
  apply double_of_size_t_monotone; exact Hnm.
Qed.

End ArithFacts.

(* ================================================================== *)
(** * Buffers and construction *)
(* ================================================================== *)

Module BufferFacts.

Import DepthMap ArithFacts.

Lemma exact_outer_from l : forall a, fold_left Z.mul l a = a * exact_outer l.
Proof.
  unfold exact_outer. induction l as [|d l IH]; intros a; cbn [fold_left].
  - lia.
  - rewrite IH. rewrite (IH (1 * d)). lia.
Qed.

Lemma exact_outer_cons d l : exact_outer (d :: l) = d * exact_outer l.
Proof.
  unfold exact_outer at 1. cbn [fold_left]. rewrite exact_outer_from. lia.
Qed.

Lemma exact_outer_nonneg l : Forall (fun d => 0 <= d) l -> 0 <= exact_outer l.
Proof.
  induction 1 as [|d l Hd Hl IH].
  - unfold exact_outer; simpl; lia.
  - rewrite exact_outer_cons. nia.
Qed.

Lemma wrap_size_mul_l a d : wrap_size (wrap_size a * d) = wrap_size (a * d).
Proof. unfold wrap_size. apply Z.mul_mod_idemp_l. lia. Qed.

(** In [size_t] the running product is the exact product modulo 2^64. *)
Lemma times_outer_wrapped l : forall a,
  times_outer (wrap_size a) l = wrap_size (a * exact_outer l).
Proof.
  unfold times_outer. induction l as [|d l IH]; intros a; cbn [fold_left].
  - unfold exact_outer; cbn [fold_left]. f_equal. lia.
  - rewrite wrap_size_mul_l, IH, exact_outer_cons. f_equal. lia.
Qed.

Lemma times_outer_cons a d l :
  times_outer a (d :: l) = wrap_size (a * exact_outer (d :: l)).
Proof.
  unfold times_outer; cbn [fold_left].
  change (fold_left (fun acc d0 => wrap_size (acc * d0)) l (wrap_size (a * d)))
    with (times_outer (wrap_size (a * d)) l).
  rewrite times_outer_wrapped, exact_outer_cons. f_equal. lia.
Qed.

Lemma getBytesUnpadded_wrapped {D} (b : CudaDeviceMemoryPitched D) :
  getBytesUnpadded b = wrap_size (exactUnpadded b).
Proof. unfold getBytesUnpadded, exactUnpadded. apply times_outer_wrapped. Qed.

Lemma getBytesUnpadded_range {D} (b : CudaDeviceMemoryPitched D) :
  0 <= getBytesUnpadded b < 2 ^ 64.
Proof. rewrite getBytesUnpadded_wrapped. apply wrap_size_range. Qed.

Lemma getBytesPadded_wrapped {D} (b : CudaDeviceMemoryPitched D) :
  tl (getSize b) <> [] -> getBytesPadded b = wrap_size (exactPadded b).
Proof.
  unfold getBytesPadded, exactPadded. destruct (tl (getSize b)) as [|d l].
  - intros N; contradiction N; reflexivity.
  - intros _. apply times_outer_cons.
Qed.

(** [bytes += x] does not wrap while the exact total fits. *)
Lemma sum_size_from l : forall a,
  Forall (fun x => 0 <= x) l -> 0 <= a -> a + fold_right Z.add 0 l < 2 ^ 64 ->
  fold_left (fun bytes x => wrap_size (bytes + x)) l a = a + fold_right Z.add 0 l.
Proof.
  induction l as [|x l IH]; intros a Hl Ha Hs; simpl in *.
  - lia.
  - inversion Hl as [|? ? Hx Hl']; subst.
    assert (0 <= fold_right Z.add 0 l).
    { clear -Hl'. induction Hl'; simpl; lia. }
    rewrite wrap_size_small by lia.
    rewrite IH; [lia|assumption|lia|lia].
Qed.

Lemma sum_size_exact l :
  Forall (fun x => 0 <= x) l -> fold_right Z.add 0 l < 2 ^ 64 ->
  sum_size l = fold_right Z.add 0 l.
Proof.
  intros Hl Hs. unfold sum_size. rewrite sum_size_from; auto; lia.
Qed.

Section WithPlatform.

Context {R : CudaRuntime} {H : HostUtils} {K : DeviceKernels}.

(** Both accessors walk the same list of buffers. *)
Lemma paddedBytes_accounted (e : Refine) :
  paddedBytes e = sum_size (map fst (accountedBuffers e)).
Proof.
  unfold paddedBytes, accountedBuffers, sum_size.
  destruct (useColorOptimization (_refineParams e));
    cbn [map fst snd app fold_left]; reflexivity.
Qed.

Lemma unpaddedBytes_accounted (e : Refine) :
  unpaddedBytes e = sum_size (map snd (accountedBuffers e)).
Proof.
  unfold unpaddedBytes, accountedBuffers, sum_size.
  destruct (useColorOptimization (_refineParams e));
    cbn [map fst snd app fold_left]; reflexivity.
Qed.

Lemma allocate_inv {D} (b b' : CudaDeviceMemoryPitched D) dims mem mem' :
  allocate b dims mem = Some (b', mem') ->
  b' = allocated b dims
  /\ deviceMalloc mem (exactPadded (allocated b dims)) = Some mem'.
Proof.
  unfold allocate, allocated, exactPadded; simpl.
  destruct (deviceMalloc mem _) as [m|]; [|discriminate].
  intros X; inversion X; subst. split; reflexivity.
Qed.

Lemma exactPadded_unallocated {D} elem (d : D) :
  exactPadded (unallocated 2 elem d) = 0.
Proof. reflexivity. Qed.

Lemma exactPadded_allocated_nonneg {L : CudaRuntimeLaws R} {D}
    (b : CudaDeviceMemoryPitched D) dims :
  Forall (fun d => 0 <= d) dims -> 0 <= exactPadded (allocated b dims).
Proof.
  intros Hd. unfold exactPadded, allocated; simpl.
  apply Z.mul_nonneg_nonneg.
  - apply pitch_nonneg. apply wrap_size_range.
  - apply exact_outer_nonneg. destruct Hd; simpl; auto.
Qed.

(** One accepted allocation: the buffer is known, the device accounts
    for its bytes, and the total stays below 2^64. *)
Lemma allocate_accounts {L : CudaRuntimeLaws R} {D}
    (b b' : CudaDeviceMemoryPitched D) dims mem mem' :
  Forall (fun d => 0 <= d) dims ->
  0 <= bytesInUse mem ->
  allocate b dims mem = Some (b', mem') ->
  b' = allocated b dims
  /\ bytesInUse mem' = bytesInUse mem + exactPadded (allocated b dims)
  /\ bytesInUse mem <= bytesInUse mem' < 2 ^ 64.
Proof.
  intros Hd Hm Ha. apply allocate_inv in Ha as [-> Hmal].
  destruct (malloc_accounts _ _ _ Hmal Hm) as [E B].
  pose proof (exactPadded_allocated_nonneg b dims Hd).
  repeat split; try assumption; lia.
Qed.

Lemma dims2_nonneg tp rp :
  Forall (fun d => 0 <= d) [maxTileWidth tp rp; maxTileHeight tp rp].
Proof.
  repeat constructor; apply size_of_int_range.
Qed.

Lemma dims3_nonneg tp rp :
  Forall (fun d => 0 <= d)
    [maxTileWidth tp rp; maxTileHeight tp rp; nbDepthsToRefine rp].
Proof.
  repeat constructor; apply size_of_int_range.
Qed.

(** One allocation of the constructor, by what the device answers. *)
Lemma allocating_outcome {D} (b : CudaDeviceMemoryPitched D) dims mem k :
  allocating b dims mem k
  = match deviceMalloc mem (exactPadded (allocated b dims)) with
    | Some mem' => k (allocated b dims) mem'
    | None => AllocationRefused mem (exactPadded (allocated b dims))
    end.
Proof.
  unfold allocating, allocate, allocated, exactPadded.
  cbn [getPitch getSize].
  destruct (deviceMalloc mem _); reflexivity.
Qed.

(** The constructor, outcome by outcome: it divides by zero before any
    allocation when the downscale factor is zero; otherwise it hands its
    allocation requests to the device in order, ends at the first one
    the device refuses, and returns [engineOf] when none is. *)
Lemma Refine_construct_outcome mp tp rp mem :
  Refine_construct mp tp rp mem
  = if downscaleFactor rp =? 0 then DividedByZero mem
    else match reserve (allocationRequests tp rp) mem with
         | inl mem' => Constructed (engineOf mp tp rp) mem'
         | inr (m, n) => AllocationRefused m n
         end.
Proof.
  unfold Refine_construct. fold (downscaleFactor rp). cbv zeta.
  destruct (downscaleFactor rp =? 0); [reflexivity|].
  fold (maxTileWidth tp rp). fold (maxTileHeight tp rp).
  fold (nbDepthsToRefine rp).
  unfold allocationRequests, engineOf. cbv zeta.
  destruct (useNormalMap rp); destruct (useColorOptimization rp);
    cbn [app reserve];
    repeat (rewrite allocating_outcome;
            destruct (deviceMalloc _ _); [|reflexivity]);
    reflexivity.
Qed.

(** A construction that returns did not divide by zero, was granted
    every request, and returns [engineOf]. *)
Lemma Refine_ctor_inv mp tp rp mem e mem' :
  Refine_ctor mp tp rp mem = Some (e, mem') ->
  downscaleFactor rp <> 0
  /\ e = engineOf mp tp rp
  /\ reserve (allocationRequests tp rp) mem = inl mem'.
Proof.
  unfold Refine_ctor. rewrite Refine_construct_outcome.
  destruct (Z.eqb_spec (downscaleFactor rp) 0) as [|N]; [discriminate|].
  destruct (reserve _ mem) as [m|[m n]]; [|discriminate].
  intros X. inversion X. subst. repeat split. exact N.
Qed.

(** Requests that are granted are accounted for, and the total stays
    below 2^64. *)
Lemma reserve_accounts {L : CudaRuntimeLaws R} requests :
  Forall (fun n => 0 <= n) requests ->
  forall mem mem',
  0 <= bytesInUse mem ->
  reserve requests mem = inl mem' ->
  bytesInUse mem' = bytesInUse mem + fold_right Z.add 0 requests
  /\ (requests <> [] -> bytesInUse mem' < 2 ^ 64).
Proof.
  induction 1 as [|n rest Hn Hrest IH]; intros mem mem' Hm Hr.
  - inversion Hr. subst. cbn [fold_right]. split; [lia|congruence].
  - cbn [reserve] in Hr.
    destruct (deviceMalloc mem n) as [m1|] eqn:E; [|discriminate].
    destruct (malloc_accounts _ _ _ E Hm) as [E1 B1].
    assert (Hm1 : 0 <= bytesInUse m1) by lia.
    destruct (IH m1 mem' Hm1 Hr) as [E2 B2].
    cbn [fold_right]. split; [lia|]. intros _.
    destruct rest as [|n' rest'].
    + inversion Hr. subst. exact B1.
    + apply B2. discriminate.
Qed.

Lemma allocationRequests_nonneg {L : CudaRuntimeLaws R} tp rp :
  Forall (fun n => 0 <= n) (allocationRequests tp rp).
Proof.
  pose proof (dims2_nonneg tp rp) as D2.
  pose proof (dims3_nonneg tp rp) as D3.
  unfold allocationRequests. cbv zeta.
  destruct (useNormalMap rp); destruct (useColorOptimization rp);
    cbn [app]; repeat constructor;
    apply exactPadded_allocated_nonneg; assumption.
Qed.

(** The requests of a construction add up to the bytes of its engine. *)
Lemma allocationRequests_total mp tp rp :
  fold_right Z.add 0 (allocationRequests tp rp)
  = deviceBytes (engineOf mp tp rp).
Proof.
  unfold allocationRequests, deviceBytes, engineOf. cbv zeta.
  cbn [_sgmDepthPixSizeMap_dmp _refinedDepthSimMap_dmp
       _optimizedDepthSimMap_dmp _normalMap_dmp _volumeRefineSim_dmp
       _optImgVariance_dmp _optTmpDepthMap_dmp].
  destruct (useNormalMap rp); destruct (useColorOptimization rp);
    cbn [app fold_right]; rewrite ?exactPadded_unallocated; lia.
Qed.

(** A successful construction returns [engineOf], and the device has
    accounted for every buffer of it. *)
Lemma Refine_ctor_accounts {L : CudaRuntimeLaws R} mp tp rp mem e mem' :
  0 <= bytesInUse mem ->
  Refine_ctor mp tp rp mem = Some (e, mem') ->
  e = engineOf mp tp rp
  /\ bytesInUse mem' = bytesInUse mem + deviceBytes e
  /\ bytesInUse mem' < 2 ^ 64.
Proof.
  intros Hm C. apply Refine_ctor_inv in C as (_ & -> & Hr).
  destruct (reserve_accounts _ (allocationRequests_nonneg tp rp) _ _ Hm Hr)
    as [E B].
  rewrite (allocationRequests_total mp) in E.
  repeat split; [exact E|].
  apply B. unfold allocationRequests. discriminate.
Qed.

End WithPlatform.

End BufferFacts.

(* ================================================================== *)
(** * The per-tile pipeline *)
(* ================================================================== *)

Module PipelineFacts.

Import DepthMap ArithFacts BufferFacts.

Section WithPlatform.

Context {R : CudaRuntime} {H : HostUtils} {K : DeviceKernels}.

Lemma run_seq (c k : M unit) w :
  run (bind c (fun _ => k)) w = run k (run c w).
Proof. reflexivity. Qed.

Lemma run_forEach_cons {A} (a : A) l body w :
  run (forEach (a :: l) body) w = run (forEach l body) (run (body a) w).
Proof. reflexivity. Qed.

(** Unfold the statements of a member function down to the worlds. *)
Ltac step :=
  unfold run, refineSimilarityOf, exportVolumeInformation,
    optimizeDepthSimMap, bind, this, emit, update, request, when, ret;
  cbn [fst snd self cache trace].

(** The loop over the target cameras launches one similarity kernel per
    camera, in order, each with the depth range it was given, and writes
    nothing but the contents of the volume. *)
Lemma similarity_loop tile droi range cam l : forall w,
  let w' := run (forEach l (refineSimilarityOf tile droi range cam)) w in
  outside_volume (self w') = outside_volume (self w)
  /\ geometry (_volumeRefineSim_dmp (self w'))
     = geometry (_volumeRefineSim_dmp (self w))
  /\ trace w'
     = rev (map (fun tc => Launch (VolumeRefineSimilarity tc range)) l)
       ++ trace w.
Proof.
  induction l as [|tc l IH]; intros w.
  - repeat split; reflexivity.
  - cbv zeta. rewrite run_forEach_cons.
    destruct (IH (run (refineSimilarityOf tile droi range cam tc) w))
      as (I1 & I2 & I3).
    cbv zeta in I1, I2, I3. rewrite I1, I2, I3. clear I1 I2 I3 IH.
    repeat split.
    cbn [map rev]. rewrite <- app_assoc. reflexivity.
Qed.

(** [exportVolumeInformation] reads the engine and writes only to the
    trace. *)
Lemma exportVolumeInformation_effect tile name w :
  run (exportVolumeInformation tile name) w
  = mkWorld (self w) (cache w)
      (volumeExportEvents tile name (self w) ++ trace w).
Proof.
  unfold volumeExportEvents. step.
  destruct (exportIntermediateCrossVolumes (_refineParams (self w)));
    destruct (exportIntermediateVolume9pCsv (_refineParams (self w)));
    cbn; destruct w; reflexivity.
Qed.

Lemma refineAndFuse_phases tile w :
  run (refineAndFuseDepthSimMap tile) w
  = fuseFinish tile (fuseCamera tile w) (_refineParams (self w))
      (fuseRoi tile w) (fuseLoop tile w).
Proof. reflexivity. Qed.

Lemma optimize_world tile w :
  run (optimizeDepthSimMap tile) w = optimizeWorld tile w.
Proof. reflexivity. Qed.

Lemma layout_params e e' :
  layout e = layout e' -> _refineParams e = _refineParams e'.
Proof.
  intros E.
  exact (f_equal (fun '(_, _, rp, _, _, _, _, _, _, _) => rp) E).
Qed.

Lemma layout_mp e e' : layout e = layout e' -> _mp e = _mp e'.
Proof.
  intros E.
  exact (f_equal (fun '(mp, _, _, _, _, _, _, _, _, _) => mp) E).
Qed.

Lemma layout_volume e e' :
  layout e = layout e' -> volumeDepthExtent e = volumeDepthExtent e'.
Proof.
  intros E. unfold volumeDepthExtent.
  exact (f_equal (fun '(_, _, _, _, _, _, _, (_, sz, _, _), _, _) => nth 2 sz 0) E).
Qed.

Lemma layout_outside e e' :
  outside_volume e = outside_volume e' -> layout e = layout e'.
Proof.
  intros E.
  exact (f_equal (fun '(l, _, _, _, _, _, _) => l) E).
Qed.

Lemma upscalePhase_layout tile inS inN w :
  layout (self (upscalePhase tile inS inN w)) = layout (self w).
Proof.
  unfold upscalePhase.
  destruct (useNormalMap _ && getBuffer inN); reflexivity.
Qed.




Lemma fuseLoop_facts tile w :
  outside_volume (self (fuseLoop tile w)) = outside_volume (self w)
  /\ geometry (_volumeRefineSim_dmp (self (fuseLoop tile w)))
     = geometry (_volumeRefineSim_dmp (self w))
  /\ trace (fuseLoop tile w)
     = rev (map (fun tc => Launch (VolumeRefineSimilarity tc
                                     (mkRange 0 (volumeDepthExtent (self w)))))
              (refineTCams tile))
       ++ Launch VolumeInitialize :: trace w.
Proof.
  unfold fuseLoop.
  destruct (similarity_loop tile (fuseRoi tile w)
              (mkRange 0 (volumeDepthExtent (self w))) (fuseCamera tile w)
              (refineTCams tile) (fuseStart tile w)) as (L1 & L2 & L3).
  cbv zeta in L1, L2, L3. rewrite L1, L2, L3.
  repeat split.
Qed.

Lemma refineAndFuse_layout tile w :
  layout (self (run (refineAndFuseDepthSimMap tile) w)) = layout (self w).
Proof.
  rewrite refineAndFuse_phases. unfold fuseFinish.
  rewrite exportVolumeInformation_effect. cbn [self].
  destruct (fuseLoop_facts tile w) as (L1 & _ & _).
  rewrite <- (layout_outside _ _ L1). reflexivity.
Qed.

Lemma fusePhase_layout tile w :
  layout (self (fusePhase tile w)) = layout (self w).
Proof.
  unfold fusePhase. destruct (useRefineFuse _).
  - apply refineAndFuse_layout.
  - reflexivity.
Qed.

Lemma optimizePhase_layout tile w :
  layout (self (optimizePhase tile w)) = layout (self w).
Proof.
  unfold optimizePhase.
  destruct (exportIntermediateDepthSimMaps _);
    destruct (useColorOptimization _ && _); reflexivity.
Qed.

(** [refineRc] is its three phases in sequence. *)
Lemma refineRc_phases tile inS inN w :
  run (refineRc tile inS inN) w
  = optimizePhase tile (fusePhase tile (upscalePhase tile inS inN w)).
Proof.
  pose proof (layout_params _ _ (upscalePhase_layout tile inS inN w)) as P1.
  pose proof (layout_params _ _
                (fusePhase_layout tile (upscalePhase tile inS inN w))) as P2.
  unfold optimizePhase. rewrite P2, P1.
  unfold fusePhase. rewrite P1.
  unfold refineRc, run, bind, this, emit, update, request, when, ret.
  cbn [fst snd self cache trace].
  unfold upscalePhase.
  destruct (exportIntermediateDepthSimMaps (_refineParams (self w)));
    destruct (useNormalMap (_refineParams (self w)) && getBuffer inN);
    destruct (useRefineFuse (_refineParams (self w)));
    destruct (useColorOptimization (_refineParams (self w))
              && (0 <? optimizationNbIterations (_refineParams (self w))));
    reflexivity.
Qed.

(** ** What a call of [refineRc] may leave in the trace *)

Lemma grows_trans P t1 t2 t3 :
  grows P t1 t2 -> grows P t2 t3 -> grows P t1 t3.
Proof.
  intros G1 G2. induction G2.
  - exact G1.
  - apply grows_emit; assumption.
Qed.

Lemma grows_weaken (P Q : Event -> Prop) t1 t2 :
  (forall ev, P ev -> Q ev) -> grows P t1 t2 -> grows Q t1 t2.
Proof.
  intros PQ G. induction G.
  - apply grows_none.
  - apply grows_emit; auto.
Qed.

Lemma grows_app P new base t :
  Forall P new -> grows P base t -> grows P base (new ++ t).
Proof.
  intros F G. induction F; cbn [app].
  - exact G.
  - apply grows_emit; assumption.
Qed.

Lemma grows_inv P base t :
  grows P base t -> exists new, t = new ++ base /\ Forall P new.
Proof.
  induction 1 as [|ev t Pev G (new & E & F)].
  - exists []. split; [reflexivity|constructor].
  - exists (ev :: new). split; [rewrite E; reflexivity|constructor; assumption].
Qed.

(** Discharge [grows] on a trace written out event by event. *)
Ltac emitted :=
  repeat first
    [ apply grows_none
    | apply grows_emit; [cbn; try assumption; try reflexivity|] ].

Lemma upscalePhase_allowed tile inS inN w :
  grows (allowed_in w) (trace w) (trace (upscalePhase tile inS inN w)).
Proof.
  unfold allowed_in, upscalePhase.
  destruct (exportIntermediateDepthSimMaps (_refineParams (self w))) eqn:Ex;
    destruct (useNormalMap (_refineParams (self w)) && getBuffer inN);
    cbn [trace]; emitted.
Qed.

Lemma volumeExportEvents_allowed tile name w e :
  _refineParams e = _refineParams (self w) ->
  Forall (allowed_in w) (volumeExportEvents tile name e).
Proof.
  intros E. unfold allowed_in, volumeExportEvents. rewrite E.
  destruct (exportIntermediateCrossVolumes (_refineParams (self w))) eqn:Ex;
    destruct (exportIntermediateVolume9pCsv (_refineParams (self w))) eqn:Ec;
    cbn; repeat constructor; cbn; rewrite ?Ex, ?Ec; reflexivity.
Qed.

Lemma refineAndFuse_allowed tile w :
  grows (allowed_in w) (trace w)
    (trace (run (refineAndFuseDepthSimMap tile) w)).
Proof.
  rewrite refineAndFuse_phases. unfold fuseFinish.
  rewrite exportVolumeInformation_effect. cbn [trace self].
  destruct (fuseLoop_facts tile w) as (L1 & _ & L3).
  apply grows_emit; [reflexivity|].
  rewrite L3.
  apply grows_app.
  - apply volumeExportEvents_allowed.
    apply layout_params. apply layout_outside. exact L1.
  - apply grows_app.
    + apply Forall_rev. apply Forall_forall. intros ev Hin.
      apply in_map_iff in Hin as (tc & <- & _).
      unfold allowed_in; cbn. rewrite !Z.eqb_refl. reflexivity.
    + emitted.
Qed.

Lemma allowed_in_layout w w' ev :
  layout (self w') = layout (self w) -> allowed_in w ev -> allowed_in w' ev.
Proof.
  intros L. unfold allowed_in.
  rewrite (layout_params _ _ L), (layout_volume _ _ L). tauto.
Qed.

Lemma fusePhase_allowed tile w :
  grows (allowed_in w) (trace w) (trace (fusePhase tile w)).
Proof.
  unfold fusePhase. destruct (useRefineFuse _).
  - apply refineAndFuse_allowed.
  - cbn [trace]. unfold allowed_in. emitted.
Qed.

Lemma optimizePhase_allowed tile w :
  grows (allowed_in w) (trace w) (trace (optimizePhase tile w)).
Proof.
  unfold allowed_in, optimizePhase, optimizeWorld.
  destruct (exportIntermediateDepthSimMaps (_refineParams (self w))) eqn:Ex;
    destruct (useColorOptimization (_refineParams (self w))
              && (0 <? optimizationNbIterations (_refineParams (self w))))
      eqn:Eo;
    cbn [trace self]; emitted.
Qed.

(** Every event a call of [refineRc] adds is allowed by the parameters of
    the engine. *)
Lemma refineRc_allowed tile inS inN w :
  grows (allowed_in w) (trace w) (trace (run (refineRc tile inS inN) w)).
Proof.
  rewrite refineRc_phases.
  pose proof (upscalePhase_layout tile inS inN w) as L1.
  pose proof (fusePhase_layout tile (upscalePhase tile inS inN w)) as L2.
  eapply grows_trans; [apply upscalePhase_allowed|].
  eapply grows_trans.
  - eapply grows_weaken; [|apply fusePhase_allowed].
    intros ev. apply allowed_in_layout. symmetry. exact L1.
  - eapply grows_weaken; [|apply optimizePhase_allowed].
    intros ev. apply allowed_in_layout. symmetry. rewrite L2. exact L1.
Qed.

Lemma refineRc_layout tile inS inN w :
  layout (self (run (refineRc tile inS inN) w)) = layout (self w).
Proof.
  rewrite refineRc_phases, optimizePhase_layout, fusePhase_layout.
  apply upscalePhase_layout.
Qed.

(** ** Operations in sequence *)

Lemma allowed_range_ok rp z ev : allowed rp z ev = true -> range_ok z ev.
Proof.
  unfold range_ok. destruct ev as [k| | | | | |]; try discriminate.
  destruct k; try discriminate. cbn.
  intros A r E. inversion E; subst.
  apply andb_prop in A as [A1 A2].
  apply Z.eqb_eq in A1. apply Z.eqb_eq in A2.
  destruct r; cbn in *; subst. reflexivity.
Qed.

Lemma perform_layout op w :
  layout (self (run (perform op) w)) = layout (self w).
Proof.
  destruct op; cbn [perform].
  - apply refineRc_layout.
  - apply refineAndFuse_layout.
  - reflexivity.
  - rewrite exportVolumeInformation_effect. reflexivity.
Qed.

Lemma perform_ranges op w :
  grows (range_ok (volumeDepthExtent (self w))) (trace w)
    (trace (run (perform op) w)).
Proof.
  destruct op; cbn [perform].
  - eapply grows_weaken; [|apply refineRc_allowed].
    intros ev. apply allowed_range_ok.
  - eapply grows_weaken; [|apply refineAndFuse_allowed].
    intros ev. apply allowed_range_ok.
  - rewrite optimize_world. unfold optimizeWorld. cbn [trace].
    apply grows_emit; [|apply grows_none].
    intros r E. discriminate E.
  - rewrite exportVolumeInformation_effect. cbn [trace].
    apply grows_app; [|apply grows_none].
    unfold volumeExportEvents.
    destruct (negb _ && negb _); [constructor|].
    destruct (exportIntermediateVolume9pCsv _);
      destruct (exportIntermediateCrossVolumes _); cbn;
      repeat constructor; intros r E; discriminate E.
Qed.

(** A sequence of operations keeps the layout of the engine and launches
    similarity kernels over the range of its volume only. *)
Lemma performAll_invariant ops : forall w,
  layout (self (run (forEach ops perform) w)) = layout (self w)
  /\ grows (range_ok (volumeDepthExtent (self w))) (trace w)
       (trace (run (forEach ops perform) w)).
Proof.
  induction ops as [|op ops IH]; intros w.
  - split; [reflexivity|apply grows_none].
  - rewrite run_forEach_cons.
    destruct (IH (run (perform op) w)) as [L G].
    pose proof (perform_layout op w) as L0.
    split.
    + rewrite L. exact L0.
    + eapply grows_trans; [apply perform_ranges|].
      rewrite (layout_volume _ _ L0) in G. exact G.
Qed.

(** ** Independence from the export flags *)

Section Quiet.

Context {KI : KernelsIgnoreExportFlags}.

Lemma similarity_body_quiet tile droi range cam tc w :
  quiet (run (refineSimilarityOf tile droi range cam tc) w)
  = quiet (run (refineSimilarityOf tile droi range cam tc) (quiet w)).
Proof.
  step. unfold quiet, with_params, write_volume.
  cbn. rewrite similarity_ignores. reflexivity.
Qed.

Lemma similarity_loop_quiet tile droi range cam l : forall w,
  quiet (run (forEach l (refineSimilarityOf tile droi range cam)) w)
  = quiet (run (forEach l (refineSimilarityOf tile droi range cam)) (quiet w)).
Proof.
  induction l as [|tc l IH]; intros w.
  - reflexivity.
  - rewrite !run_forEach_cons.
    rewrite IH. rewrite similarity_body_quiet. rewrite <- IH. reflexivity.
Qed.

Lemma fuseLoop_quiet tile w :
  quiet (fuseLoop tile w) = quiet (fuseLoop tile (quiet w)).
Proof.
  unfold fuseLoop.
  rewrite similarity_loop_quiet.
  rewrite (similarity_loop_quiet tile _ _ _ _ (fuseStart tile (quiet w))).
  reflexivity.
Qed.

Lemma fuseFinish_quiet tile cam rp droi wl :
  quiet (fuseFinish tile cam rp droi wl)
  = quiet (fuseFinish tile cam (with_export_flags rp false false false) droi
             (quiet wl)).
Proof.
  unfold fuseFinish. rewrite !exportVolumeInformation_effect.
  unfold quiet, with_params, write_refined. cbn.
  rewrite bestdepth_ignores. reflexivity.
Qed.

Lemma refineAndFuse_quiet tile w :
  quiet (run (refineAndFuseDepthSimMap tile) w)
  = quiet (run (refineAndFuseDepthSimMap tile) (quiet w)).
Proof.
  rewrite !refineAndFuse_phases.
  rewrite fuseFinish_quiet.
  rewrite (fuseFinish_quiet tile _ _ _ (fuseLoop tile (quiet w))).
  rewrite fuseLoop_quiet. reflexivity.
Qed.

Lemma upscalePhase_quiet tile inS inN w :
  quiet (upscalePhase tile inS inN w)
  = quiet (upscalePhase tile inS inN (quiet w)).
Proof.
  unfold upscalePhase, quiet, with_params, write_sgm, write_normal. cbn.
  rewrite !upscale_ignores, !pixsize_ignores.
  destruct (useNormalMap (_refineParams (self w)) && getBuffer inN);
    reflexivity.
Qed.

Lemma fusePhase_quiet tile w :
  quiet (fusePhase tile w) = quiet (fusePhase tile (quiet w)).
Proof.
  unfold fusePhase.
  change (useRefineFuse (_refineParams (self (quiet w))))
    with (useRefineFuse (_refineParams (self w))).
  destruct (useRefineFuse _).
  - apply refineAndFuse_quiet.
  - reflexivity.
Qed.

Lemma optimizePhase_quiet tile w :
  quiet (optimizePhase tile w) = quiet (optimizePhase tile (quiet w)).
Proof.
  unfold optimizePhase, optimizeWorld, quiet, with_params, write_tmp,
    write_variance, write_optimized. cbn.
  destruct (exportIntermediateDepthSimMaps (_refineParams (self w)));
    destruct (useColorOptimization (_refineParams (self w))
              && (0 <? optimizationNbIterations (_refineParams (self w))));
    cbn; rewrite ?optimize_ignores; reflexivity.
Qed.

(** Clearing the export flags and the trace before a call or after it
    gives the same world. *)
Lemma refineRc_quiet tile inS inN w :
  quiet (run (refineRc tile inS inN) w)
  = quiet (run (refineRc tile inS inN) (quiet w)).
Proof.
  rewrite !refineRc_phases.
  rewrite optimizePhase_quiet, fusePhase_quiet, upscalePhase_quiet.
  rewrite <- fusePhase_quiet, <- optimizePhase_quiet. reflexivity.
Qed.

End Quiet.

End WithPlatform.

End PipelineFacts.

(* ================================================================== *)
(** * Memory accounting *)
(* ================================================================== *)

Module MemoryFacts.

Import DepthMap ArithFacts BufferFacts.

Section WithPlatform.

Context {R : CudaRuntime} {H : HostUtils} {K : DeviceKernels}.
Context {RL : CudaRuntimeLaws R}.

Lemma exact_outer_1 h : exact_outer [h] = h.
Proof. unfold exact_outer; cbn [fold_left]. lia. Qed.

Lemma exact_outer_2 h d : exact_outer [h; d] = h * d.
Proof. unfold exact_outer; cbn [fold_left]. lia. Qed.

Lemma getBytesPadded_unallocated {D} elem (d : D) :
  getBytesPadded (unallocated 2 elem d) = 0.
Proof. reflexivity. Qed.

Lemma getBytesUnpadded_unallocated {D} elem (d : D) :
  getBytesUnpadded (unallocated 2 elem d) = 0.
Proof. reflexivity. Qed.

Lemma exactUnpadded_unallocated {D} elem (d : D) :
  exactUnpadded (unallocated 2 elem d) = 0.
Proof. reflexivity. Qed.

(** The padded count of an allocated buffer is exact when it fits. *)
Lemma getBytesPadded_allocated {D} (b : CudaDeviceMemoryPitched D) w h l :
  0 <= exactPadded (allocated b (w :: h :: l)) < 2 ^ 64 ->
  getBytesPadded (allocated b (w :: h :: l))
  = exactPadded (allocated b (w :: h :: l)).
Proof.
  intros B. rewrite getBytesPadded_wrapped by (cbn; discriminate).
  apply wrap_size_small. exact B.
Qed.

Lemma engineOf_bufferBytes_nonneg mp tp rp :
  Forall (fun x => 0 <= x) (bufferBytes (engineOf mp tp rp)).
Proof.
  pose proof (dims2_nonneg tp rp) as D2.
  pose proof (dims3_nonneg tp rp) as D3.
  unfold bufferBytes, engineOf.
  cbn [_sgmDepthPixSizeMap_dmp _refinedDepthSimMap_dmp
       _optimizedDepthSimMap_dmp _normalMap_dmp _volumeRefineSim_dmp
       _optImgVariance_dmp _optTmpDepthMap_dmp].
  destruct (useNormalMap rp); destruct (useColorOptimization rp);
    repeat constructor;
    rewrite ?exactPadded_unallocated;
    try lia; apply exactPadded_allocated_nonneg; assumption.
Qed.

Lemma deviceBytes_sum e : deviceBytes e = fold_right Z.add 0 (bufferBytes e).
Proof. unfold deviceBytes, bufferBytes; cbn [fold_right]. lia. Qed.

(** On a constructed engine the padded accessor adds up exactly the bytes
    the device holds for it. *)
Lemma engineOf_paddedBytes mp tp rp :
  deviceBytes (engineOf mp tp rp) < 2 ^ 64 ->
  paddedBytes (engineOf mp tp rp) = deviceBytes (engineOf mp tp rp)
  /\ fold_right Z.add 0 (map fst (accountedBuffers (engineOf mp tp rp)))
     = deviceBytes (engineOf mp tp rp)
  /\ Forall (fun pu => 0 <= fst pu)
       (accountedBuffers (engineOf mp tp rp)).
Proof.
  intros B.
  pose proof (engineOf_bufferBytes_nonneg mp tp rp) as N.
  rewrite deviceBytes_sum in *.
  rewrite paddedBytes_accounted.
  unfold bufferBytes, accountedBuffers, engineOf in *.
  cbn [_sgmDepthPixSizeMap_dmp _refinedDepthSimMap_dmp
       _optimizedDepthSimMap_dmp _normalMap_dmp _volumeRefineSim_dmp
       _optImgVariance_dmp _optTmpDepthMap_dmp _refineParams] in *.
  repeat match goal with
         | N : Forall _ (_ :: _) |- _ => inversion N; subst; clear N
         | N : Forall _ [] |- _ => clear N
         end.
  cbn [fold_right] in B.
  destruct (useNormalMap rp); destruct (useColorOptimization rp);
    cbn [app map fst snd];
    rewrite ?getBytesPadded_unallocated, ?exactPadded_unallocated in *;
    rewrite ?getBytesPadded_allocated by lia;
    (split; [|split];
     [ rewrite sum_size_exact; cbn [fold_right];
       [lia | repeat constructor; lia | lia]
     | cbn [fold_right]; lia
     | repeat constructor; cbn [fst]; lia ]).
Qed.

Lemma accounted_unpadded_range (e : Refine) :
  Forall (fun pu => 0 <= snd pu < 2 ^ 64) (accountedBuffers e).
Proof.
  unfold accountedBuffers.
  destruct (useColorOptimization (_refineParams e)); cbn [app];
    repeat constructor; cbn [snd]; apply getBytesUnpadded_range.
Qed.

(** Adding up the smaller component of each pair cannot wrap where the
    larger components fit, and gives the smaller total. *)
Lemma sum_size_dominated (l : list (Z * Z)) :
  Forall (fun pu => 0 <= snd pu <= fst pu) l ->
  fold_right Z.add 0 (map fst l) < 2 ^ 64 ->
  sum_size (map snd l) = fold_right Z.add 0 (map snd l)
  /\ 0 <= fold_right Z.add 0 (map snd l) <= fold_right Z.add 0 (map fst l).
Proof.
  intros F B.
  assert (T : 0 <= fold_right Z.add 0 (map snd l)
              <= fold_right Z.add 0 (map fst l)).
  { clear B. induction F as [|[p u] l Hpu _ IH]; cbn in *; lia. }
  split; [|exact T].
  apply sum_size_exact; [|lia].
  apply Forall_map. eapply Forall_impl; [|exact F].
  intros [p u]; cbn; lia.
Qed.

End WithPlatform.

End MemoryFacts.

(* ================================================================== *)
(** * Construction *)
(* ================================================================== *)

Module ConstructionFacts.

Import DepthMap ArithFacts BufferFacts.

Section WithPlatform.

Context {R : CudaRuntime} {H : HostUtils} {K : DeviceKernels}.

(** A construction that succeeds returns [engineOf]. *)
Lemma Refine_ctor_engineOf mp tp rp mem e mem' :
  Refine_ctor mp tp rp mem = Some (e, mem') -> e = engineOf mp tp rp.
Proof.
  intros C. apply Refine_ctor_inv in C as (_ & E & _). exact E.
Qed.

(** The constructor does not look at the iteration count: neither the
    downscale factor nor the allocation requests depend on it. *)
Lemma construction_ignores_iterations tp rp n :
  downscaleFactor (with_iterations rp n) = downscaleFactor rp
  /\ allocationRequests tp (with_iterations rp n) = allocationRequests tp rp.
Proof. split; reflexivity. Qed.

(** Whether a construction returns does not depend on the iteration
    count. *)
Lemma Refine_ctor_iterations mp tp rp mem n :
  Refine_ctor mp tp (with_iterations rp n) mem = None
  <-> Refine_ctor mp tp rp mem = None.
Proof.
  unfold Refine_ctor. rewrite !Refine_construct_outcome.
  destruct (construction_ignores_iterations tp rp n) as [-> ->].
  destruct (downscaleFactor rp =? 0); [tauto|].
  destruct (reserve _ mem) as [m|[m k]]; split; intros X;
    try discriminate X; reflexivity.
Qed.

End WithPlatform.

End ConstructionFacts.

(* ================================================================== *)
(** * Monotonicity of the memory accessors *)
(* ================================================================== *)

Module MonotoneFacts.

Import DepthMap ArithFacts BufferFacts MemoryFacts.

Section WithPlatform.

Context {R : CudaRuntime} {H : HostUtils} {K : DeviceKernels}.
Context {RL : CudaRuntimeLaws R} {PL : PitchLaws R} {HL : HostUtilsLaws H}.

Lemma sane_width tp rp :
  sane tp rp ->
  maxTileWidth tp rp = divideRoundUp (bufferWidth tp) (downscaleFactor rp)
  /\ 0 <= maxTileWidth tp rp < 2 ^ 31.
Proof.
  intros (Hd & Hw & _ & _). unfold maxTileWidth.
  pose proof (divideRoundUp_bounds _ _ Hd Hw).
  rewrite size_of_int_nonneg by assumption. split; [reflexivity|assumption].
Qed.

Lemma sane_height tp rp :
  sane tp rp ->
  maxTileHeight tp rp = divideRoundUp (bufferHeight tp) (downscaleFactor rp)
  /\ 0 <= maxTileHeight tp rp < 2 ^ 31.
Proof.
  intros (Hd & _ & Hh & _). unfold maxTileHeight.
  pose proof (divideRoundUp_bounds _ _ Hd Hh).
  rewrite size_of_int_nonneg by assumption. split; [reflexivity|assumption].
Qed.

Lemma sane_depths tp rp :
  sane tp rp -> nbDepthsToRefine rp = 2 * halfNbDepths rp + 1.
Proof.
  intros (_ & _ & _ & Hn). unfold nbDepthsToRefine.
  rewrite wrap_int_small by lia. rewrite size_of_int_nonneg by lia. lia.
Qed.

Lemma exact_outer_monotone l l' :
  Forall2 (fun a b => 0 <= a <= b) l l' ->
  0 <= exact_outer l <= exact_outer l'.
Proof.
  induction 1 as [|a b l l' Hab _ IH].
  - unfold exact_outer; cbn [fold_left]. lia.
  - rewrite !exact_outer_cons. nia.
Qed.

(** One buffer allocated for larger dimensions is not smaller, padded or
    unpadded, and its padding does not make it smaller. *)
Lemma allocated_monotone {D} (b : CudaDeviceMemoryPitched D) w w' outer outer' :
  0 <= sizeofType b < 2 ^ 16 ->
  0 <= w <= w' -> w' < 2 ^ 31 ->
  Forall2 (fun a b => 0 <= a <= b) outer outer' ->
  exactPadded (allocated b (w :: outer))
    <= exactPadded (allocated b (w' :: outer'))
  /\ exactUnpadded (allocated b (w :: outer))
     <= exactUnpadded (allocated b (w' :: outer'))
  /\ 0 <= exactUnpadded (allocated b (w :: outer))
     <= exactPadded (allocated b (w :: outer)).
Proof.
  intros Hs Hw Hw' Ho.
  pose proof (exact_outer_monotone _ _ Ho) as Hm.
  unfold exactPadded, exactUnpadded, allocated.
  cbn [getPitch getSize sizeofType hd tl].
  assert (Hr : 0 <= w * sizeofType b <= w' * sizeofType b) by nia.
  assert (Hr' : w' * sizeofType b < 2 ^ 64) by nia.
  rewrite !wrap_size_small by lia.
  pose proof (pitch_monotone _ _ Hr) as Pm.
  pose proof (pitch_covers_row (w * sizeofType b) ltac:(lia)) as Pc.
  repeat split; nia.
Qed.

Lemma sane_allocated_2 {D} (b : CudaDeviceMemoryPitched D) tp rp tp' rp' :
  0 <= sizeofType b < 2 ^ 16 ->
  sane tp rp -> sane tp' rp' -> grown tp rp tp' rp' ->
  let a := allocated b [maxTileWidth tp rp; maxTileHeight tp rp] in
  let a' := allocated b [maxTileWidth tp' rp'; maxTileHeight tp' rp'] in
  exactPadded a <= exactPadded a'
  /\ exactUnpadded a <= exactUnpadded a'
  /\ 0 <= exactUnpadded a <= exactPadded a.
Proof.
  intros Hs S S' (Gw & Gh & Gn & Grp).
  destruct (sane_width _ _ S) as [Ew Bw].
  destruct (sane_width _ _ S') as [Ew' Bw'].
  destruct (sane_height _ _ S) as [Eh Bh].
  destruct (sane_height _ _ S') as [Eh' Bh'].
  assert (Ed : downscaleFactor rp' = downscaleFactor rp) by (rewrite Grp; reflexivity).
  destruct S as (Hd & Hw & Hh & _).
  assert (Mw : maxTileWidth tp rp <= maxTileWidth tp' rp').
  { rewrite Ew, Ew', Ed. apply divideRoundUp_monotone; lia. }
  assert (Mh : maxTileHeight tp rp <= maxTileHeight tp' rp').
  { rewrite Eh, Eh', Ed. apply divideRoundUp_monotone; lia. }
  cbv zeta. apply allocated_monotone; try lia.
  repeat constructor; lia.
Qed.

Lemma sane_allocated_3 {D} (b : CudaDeviceMemoryPitched D) tp rp tp' rp' :
  0 <= sizeofType b < 2 ^ 16 ->
  sane tp rp -> sane tp' rp' -> grown tp rp tp' rp' ->
  let a := allocated b [maxTileWidth tp rp; maxTileHeight tp rp;
                        nbDepthsToRefine rp] in
  let a' := allocated b [maxTileWidth tp' rp'; maxTileHeight tp' rp';
                         nbDepthsToRefine rp'] in
  exactPadded a <= exactPadded a'
  /\ exactUnpadded a <= exactUnpadded a'
  /\ 0 <= exactUnpadded a <= exactPadded a.
Proof.
  intros Hs S S' (Gw & Gh & Gn & Grp).
  destruct (sane_width _ _ S) as [Ew Bw].
  destruct (sane_width _ _ S') as [Ew' Bw'].
  destruct (sane_height _ _ S) as [Eh Bh].
  destruct (sane_height _ _ S') as [Eh' Bh'].
  pose proof (sane_depths _ _ S) as En.
  pose proof (sane_depths _ _ S') as En'.
  assert (Ed : downscaleFactor rp' = downscaleFactor rp) by (rewrite Grp; reflexivity).
  destruct S as (Hd & Hw & Hh & Hn).
  assert (Mw : maxTileWidth tp rp <= maxTileWidth tp' rp').
  { rewrite Ew, Ew', Ed. apply divideRoundUp_monotone; lia. }
  assert (Mh : maxTileHeight tp rp <= maxTileHeight tp' rp').
  { rewrite Eh, Eh', Ed. apply divideRoundUp_monotone; lia. }
  cbv zeta. apply allocated_monotone; try lia.
  repeat constructor; lia.
Qed.

Lemma grown_refl tp rp : grown tp rp tp rp.
Proof. unfold grown. destruct rp. repeat split; lia. Qed.

Lemma sizeof_TSimRefine_small : 0 <= sizeof_TSimRefine < 2 ^ 16.
Proof. pose proof sizeof_TSimRefine_range. lia. Qed.

Lemma sizeof_small {D} n elem (d : D) :
  0 <= elem < 2 ^ 16 -> 0 <= sizeofType (unallocated n elem d) < 2 ^ 16.
Proof. intros E. exact E. Qed.

Lemma sizeof_float2_small : 0 <= sizeof_float2 < 2 ^ 16.
Proof. unfold sizeof_float2. lia. Qed.

Lemma sizeof_float3_small : 0 <= sizeof_float3 < 2 ^ 16.
Proof. unfold sizeof_float3. lia. Qed.

Lemma sizeof_float_small : 0 <= sizeof_float < 2 ^ 16.
Proof. unfold sizeof_float. lia. Qed.

(** Name the facts of [sane_allocated_2] and [sane_allocated_3] for the
    buffers of the two engines. *)
Ltac buffer_facts tp rp tp' rp' S S' G :=
  pose proof (sane_allocated_2 (unallocated 2 sizeof_float2 blank2)
                tp rp tp' rp' sizeof_float2_small S S' G) as F2;
  pose proof (sane_allocated_2 (unallocated 2 sizeof_float3 blank3)
                tp rp tp' rp' sizeof_float3_small S S' G) as F3;
  pose proof (sane_allocated_2 (unallocated 2 sizeof_float blank1)
                tp rp tp' rp' sizeof_float_small S S' G) as F1;
  pose proof (sane_allocated_3 (unallocated 3 sizeof_TSimRefine blankV)
                tp rp tp' rp' sizeof_TSimRefine_small S S' G) as FV;
  cbv zeta in F2, F3, F1, FV.

Ltac engine_fields :=
  cbn [_sgmDepthPixSizeMap_dmp _refinedDepthSimMap_dmp
       _optimizedDepthSimMap_dmp _normalMap_dmp _volumeRefineSim_dmp
       _optImgVariance_dmp _optTmpDepthMap_dmp _refineParams] in *.

(** A larger sane configuration gives an engine that is not smaller, in
    device bytes and in logical bytes. *)
Lemma grown_engine mp tp rp tp' rp' :
  sane tp rp -> sane tp' rp' -> grown tp rp tp' rp' ->
  deviceBytes (engineOf mp tp rp) <= deviceBytes (engineOf mp tp' rp')
  /\ logicalBytes (engineOf mp tp rp) <= logicalBytes (engineOf mp tp' rp')
  /\ 0 <= logicalBytes (engineOf mp tp rp) <= deviceBytes (engineOf mp tp rp).
Proof.
  intros S S' G. buffer_facts tp rp tp' rp' S S' G.
  destruct G as (_ & _ & _ & Grp).
  assert (En : useNormalMap rp' = useNormalMap rp) by (rewrite Grp; reflexivity).
  assert (Ec : useColorOptimization rp' = useColorOptimization rp)
    by (rewrite Grp; reflexivity).
  unfold deviceBytes, logicalBytes, engineOf. engine_fields.
  rewrite En, Ec.
  destruct (useNormalMap rp); destruct (useColorOptimization rp);
    rewrite ?exactPadded_unallocated, ?exactUnpadded_unallocated; lia.
Qed.

(** On a sane constructed engine the unpadded accessor adds up exactly
    the logical bytes. *)
Lemma sane_unpaddedBytes mp tp rp :
  sane tp rp ->
  deviceBytes (engineOf mp tp rp) < 2 ^ 64 ->
  unpaddedBytes (engineOf mp tp rp) = logicalBytes (engineOf mp tp rp).
Proof.
  intros S B.
  pose proof (grown_engine mp tp rp tp rp S S (grown_refl tp rp)) as (_ & _ & T).
  buffer_facts tp rp tp rp S S (grown_refl tp rp).
  pose proof (engineOf_bufferBytes_nonneg mp tp rp) as N.
  rewrite unpaddedBytes_accounted.
  unfold deviceBytes, logicalBytes, bufferBytes, accountedBuffers, engineOf in *.
  engine_fields.
  repeat match goal with
         | N : Forall _ (_ :: _) |- _ => inversion N; subst; clear N
         | N : Forall _ [] |- _ => clear N
         end.
  destruct (useNormalMap rp); destruct (useColorOptimization rp);
    cbn [app map fst snd];
    rewrite ?getBytesUnpadded_unallocated, ?exactPadded_unallocated,
      ?exactUnpadded_unallocated in *;
    rewrite !getBytesUnpadded_wrapped;
    rewrite ?exactUnpadded_unallocated;
    rewrite !wrap_size_small by lia;
    (rewrite sum_size_exact; cbn [fold_right];
     [lia | repeat constructor; lia | lia]).
Qed.

End WithPlatform.

End MonotoneFacts.

(* ================================================================== *)
(** * The reference platform obeys the laws *)
(* ================================================================== *)

Module ReferenceFacts.

Import DepthMap Reference.

Lemma pitch512_covers n : n <= pitch512 n.
Proof.
  unfold pitch512.
  pose proof (Z.div_mod (n + 511) 512 ltac:(lia)).
  pose proof (Z.mod_pos_bound (n + 511) 512 ltac:(lia)).
  lia.
Qed.

Lemma pitch512_monotone n m : n <= m -> pitch512 n <= pitch512 m.
Proof.
  intros L. unfold pitch512.
  apply Z.mul_le_mono_nonneg_r; [lia|].
  apply Z.div_le_mono; lia.
Qed.

#[export] Instance device_laws : CudaRuntimeLaws device.
Proof.
  split.
  - intros mem n mem'.
    change (@deviceMalloc device) with malloc.
    change (@bytesInUse device) with (fun m : Z => m). cbv beta.
    unfold malloc, capacity.
    destruct (Z.leb_spec 0 n); [|discriminate].
    destruct (Z.leb_spec (mem + n) (2 ^ 32)); [|discriminate].
    cbn [andb]. intros X Hm. inversion X; subst. lia.
  - intros n Hn. change (@rowPitch device) with pitch512.
    pose proof (pitch512_covers n). lia.
Qed.

#[export] Instance device_pitch_laws : PitchLaws device.
Proof.
  split.
  - intros n _. apply pitch512_covers.
  - intros n m [_ L]. apply pitch512_monotone. exact L.
Qed.

Lemma ceil_div_positive a b :
  0 <= a -> 0 < b -> ceil_div a b = (a + b - 1) / b.
Proof.
  intros Ha Hb. unfold ceil_div.
  destruct (Z.leb_spec 0 a); [|lia].
  destruct (Z.leb_spec 0 b); [|lia].
  cbn [Bool.eqb].
  rewrite Z.quot_div_nonneg, Z.rem_mod_nonneg by lia.
  pose proof (Z.div_mod a b ltac:(lia)) as Ed.
  pose proof (Z.mod_pos_bound a b Hb) as Em.
  destruct (Z.eqb_spec (a mod b) 0) as [E0|N0].
  - apply (Z.div_unique _ _ _ (b - 1)); [left; lia|lia].
  - apply (Z.div_unique _ _ _ (a mod b - 1)); [left; lia|lia].
Qed.

#[export] Instance host_laws : HostUtilsLaws host.
Proof.
  split.
  - intros a b Hb Ha. change (@divideRoundUp host) with ceil_div.
    rewrite ceil_div_positive by lia.
    split.
    + apply Z.div_pos; lia.
    + assert ((a + b - 1) / b < a + 1); [|lia].
      apply Z.div_lt_upper_bound; nia.
  - intros a a' b Hb Ha. change (@divideRoundUp host) with ceil_div.
    rewrite !ceil_div_positive by lia.
    apply Z.div_le_mono; lia.
  - change (@sizeof_TSimRefine host) with 4. lia.
Qed.

#[export] Instance summation_laws : SimilaritySummationLaws summation.
Proof.
  split.
  - reflexivity.
  - intros v a b. change (@accumulate host kernels summation) with Z.add.
    lia.
  - reflexivity.
Qed.

#[export] Instance kernels_ignore_flags : KernelsIgnoreExportFlags.
Proof. split; reflexivity. Qed.

End ReferenceFacts.

(* ================================================================== *)
(** * The specification of the Refine engine *)
(* ================================================================== *)

Module RefineSpec.

Import DepthMap ArithFacts BufferFacts PipelineFacts MemoryFacts
  ConstructionFacts MonotoneFacts.

Section WithPlatform.

Context {R : CudaRuntime} {H : HostUtils} {K : DeviceKernels}.

(** C1, amended: the constructor validates nothing.  When [scale * stepXY]
    is zero it divides by zero in [divideRoundUp] before any allocation.
    For every other parameter set it hands its allocation requests to the
    device in the order of the source and ends at the first one the
    device refuses; when the device grants them all it returns the engine
    [engineOf], which holds the tile and refine parameters it was given,
    whatever they are.  Neither the downscale factor nor the requests
    depend on [optimizationNbIterations], so whether a construction
    returns does not depend on it either. *)
Theorem Refine_ctor_never_validates mp tp rp mem :
  (downscaleFactor rp = 0 ->
   Refine_construct mp tp rp mem = DividedByZero mem)
  /\ (downscaleFactor rp <> 0 ->
      Refine_construct mp tp rp mem
      = match reserve (allocationRequests tp rp) mem with
        | inl mem' => Constructed (engineOf mp tp rp) mem'
        | inr (m, n) => AllocationRefused m n
        end)
  /\ (forall e mem',
        Refine_ctor mp tp rp mem = Some (e, mem')
        <-> Refine_construct mp tp rp mem = Constructed e mem')
  /\ (forall e mem', Refine_ctor mp tp rp mem = Some (e, mem') ->
        e = engineOf mp tp rp /\ _refineParams e = rp /\ _tileParams e = tp)
  /\ (forall n,
        downscaleFactor (with_iterations rp n) = downscaleFactor rp
        /\ allocationRequests tp (with_iterations rp n)
           = allocationRequests tp rp
        /\ (Refine_ctor mp tp (with_iterations rp n) mem = None
            <-> Refine_ctor mp tp rp mem = None)).
Proof.
  split; [|split; [|split; [|split]]].
  - intros Z0. rewrite Refine_construct_outcome, Z0. reflexivity.
  - intros N. rewrite Refine_construct_outcome.
    destruct (Z.eqb_spec (downscaleFactor rp) 0); [contradiction|].
    reflexivity.
  - intros e mem'. unfold Refine_ctor.
    destruct (Refine_construct mp tp rp mem) as [e0 m0|m0|m0 n0]; split;
      intros X; try discriminate X; inversion X; reflexivity.
  - intros e mem' C. apply Refine_ctor_engineOf in C. subst e.
    repeat split.
  - intros n. destruct (construction_ignores_iterations tp rp n) as [E1 E2].
    repeat split; try assumption; apply Refine_ctor_iterations.
Qed.


(** C3: with [useRefineFuse = false], [refineRc] leaves a refined map
    whose depth is, pixel for pixel, the depth of the upscaled coarse map
    and whose similarity is the constant [1.0f] at every pixel; the
    upscaled map is the one the upscale phase produced. *)
Theorem refineRc_passthrough tile inS inN w :
  useRefineFuse (_refineParams (self w)) = false ->
  let w' := run (refineRc tile inS inN) w in
  _sgmDepthPixSizeMap_dmp (self w')
  = _sgmDepthPixSizeMap_dmp (self (upscalePhase tile inS inN w))
  /\ forall x y,
       contents (_refinedDepthSimMap_dmp (self w')) x y
       = (fst (contents (_sgmDepthPixSizeMap_dmp (self w')) x y), one_f).
Proof.
  intros F. cbv zeta. rewrite refineRc_phases.
  pose proof (layout_params _ _ (upscalePhase_layout tile inS inN w)) as P1.
  unfold fusePhase. rewrite P1, F.
  unfold optimizePhase, optimizeWorld. cbn [self cache trace].
  destruct (exportIntermediateDepthSimMaps _);
    destruct (useColorOptimization _ && _);
    split; reflexivity.
Qed.

(** C4: with [useColorOptimization = false] or
    [optimizationNbIterations = 0], [refineRc] ends with a device copy of
    the refined map, as the fuse phase left it, into the optimized map:
    the refined map is kept, the optimized map keeps its geometry and
    receives the contents of the refined map, so that both hold the same
    contents afterwards; no other buffer is written by that last step,
    and the call launches no gradient-descent optimization kernel. *)
Theorem refineRc_optimization_disabled tile inS inN w :
  useColorOptimization (_refineParams (self w)) = false
  \/ optimizationNbIterations (_refineParams (self w)) = 0 ->
  let fused := fusePhase tile (upscalePhase tile inS inN w) in
  let w' := run (refineRc tile inS inN) w in
  _refinedDepthSimMap_dmp (self w') = _refinedDepthSimMap_dmp (self fused)
  /\ _optimizedDepthSimMap_dmp (self w')
     = overwrite (_optimizedDepthSimMap_dmp (self fused))
         (contents (_refinedDepthSimMap_dmp (self fused)))
  /\ contents (_optimizedDepthSimMap_dmp (self w'))
     = contents (_refinedDepthSimMap_dmp (self w'))
  /\ (_sgmDepthPixSizeMap_dmp (self w'), _normalMap_dmp (self w'),
      _volumeRefineSim_dmp (self w'), _optImgVariance_dmp (self w'),
      _optTmpDepthMap_dmp (self w'))
     = (_sgmDepthPixSizeMap_dmp (self fused), _normalMap_dmp (self fused),
        _volumeRefineSim_dmp (self fused), _optImgVariance_dmp (self fused),
        _optTmpDepthMap_dmp (self fused))
  /\ exists new,
       trace w' = DeviceCopy :: new ++ trace w
       /\ Forall (fun ev => is_optimize ev = false) new.
Proof.
  intros Off. cbv zeta.
  assert (D : useColorOptimization (_refineParams (self w))
              && (0 <? optimizationNbIterations (_refineParams (self w)))
              = false).
  { destruct Off as [-> | ->]; [reflexivity|apply andb_false_r]. }
  rewrite refineRc_phases.
  set (w2 := fusePhase tile (upscalePhase tile inS inN w)).
  pose proof (upscalePhase_layout tile inS inN w) as L1.
  pose proof (fusePhase_layout tile (upscalePhase tile inS inN w)) as L2.
  fold w2 in L2.
  assert (L : layout (self w2) = layout (self w)) by (rewrite L2; exact L1).
  assert (G : grows (allowed_in w) (trace w) (trace w2)).
  { eapply grows_trans; [apply upscalePhase_allowed|].
    eapply grows_weaken; [|apply fusePhase_allowed].
    intros ev. apply allowed_in_layout. symmetry. exact L1. }
  assert (Q : forall ev, allowed_in w ev -> is_optimize ev = false).
  { unfold allowed_in. intros [k| | | | | |]; try reflexivity.
    destruct k; try reflexivity. cbn. rewrite D. discriminate. }
  unfold optimizePhase. rewrite (layout_params _ _ L), D.
  destruct (exportIntermediateDepthSimMaps (_refineParams (self w))) eqn:Ex;
    cbn [self cache trace copyFrom overwrite contents
         _optimizedDepthSimMap_dmp _refinedDepthSimMap_dmp
         _sgmDepthPixSizeMap_dmp _normalMap_dmp _volumeRefineSim_dmp
         _optImgVariance_dmp _optTmpDepthMap_dmp];
    (split; [reflexivity|]); (split; [reflexivity|]);
    (split; [reflexivity|]); (split; [reflexivity|]).
  - apply grows_inv in G as (new & E & F).
    eexists (_ :: new). split; [rewrite E; reflexivity|].
    constructor; [reflexivity|].
    eapply Forall_impl; [exact Q|exact F].
  - apply grows_inv in G as (new & E & F).
    exists new. split; [rewrite E; reflexivity|].
    eapply Forall_impl; [exact Q|exact F].
Qed.

(** C5: for a number of depths that fits an [int]
    ([0 <= halfNbDepths < 2^30]), the similarity volume of a constructed
    engine has depth extent [2 * halfNbDepths + 1]; every sequence of
    operations of the engine keeps that extent, and every similarity
    kernel is launched over the depth range [0, 2 * halfNbDepths + 1). *)
Theorem volume_depth_extent mp tp rp mem e mem' ops c :
  0 <= halfNbDepths rp < 2 ^ 30 ->
  Refine_ctor mp tp rp mem = Some (e, mem') ->
  volumeDepthExtent e = 2 * halfNbDepths rp + 1
  /\ let w' := run (forEach ops perform) (mkWorld e c []) in
     volumeDepthExtent (self w') = 2 * halfNbDepths rp + 1
     /\ forall ev r, In ev (trace w') -> similarity_range ev = Some r ->
          r = mkRange 0 (2 * halfNbDepths rp + 1).
Proof.
  intros Hn C. apply Refine_ctor_engineOf in C. subst e.
  assert (E : volumeDepthExtent (engineOf mp tp rp) = 2 * halfNbDepths rp + 1).
  { unfold volumeDepthExtent, engineOf, allocated, nbDepthsToRefine.
    cbn [_volumeRefineSim_dmp getSize nth].
    rewrite wrap_int_small by lia. rewrite size_of_int_nonneg by lia. lia. }
  split; [exact E|]. cbv zeta.
  destruct (performAll_invariant ops (mkWorld (engineOf mp tp rp) c []))
    as [L G].
  cbn [self trace] in L, G.
  split.
  - rewrite (layout_volume _ _ L). exact E.
  - rewrite E in G. apply grows_inv in G as (new & Et & F).
    rewrite app_nil_r in Et. rewrite Et.
    intros ev r Hin. rewrite Forall_forall in F. apply (F ev Hin).
Qed.

Section Devices.

Context {RL : CudaRuntimeLaws R}.

(** C9: on a constructed engine, if every buffer the accessors add up
    has a padded byte count at least its unpadded byte count, then
    [getDeviceMemoryConsumption] reports at least
    [getDeviceMemoryConsumptionUnpadded]; and both accessors add up the
    same list of buffers, the two optimization buffers being in it
    exactly when [useColorOptimization] is set. *)
Theorem padded_covers_unpadded mp tp rp mem e mem' :
  0 <= bytesInUse mem ->
  Refine_ctor mp tp rp mem = Some (e, mem') ->
  (forall p u, In (p, u) (accountedBuffers e) -> u <= p) ->
  (getDeviceMemoryConsumptionUnpadded e <= getDeviceMemoryConsumption e)%Q
  /\ paddedBytes e = sum_size (map fst (accountedBuffers e))
  /\ unpaddedBytes e = sum_size (map snd (accountedBuffers e))
  /\ List.length (accountedBuffers e)
     = if useColorOptimization (_refineParams e) then 7%nat else 5%nat.
Proof.
  intros Hm C Hpu.
  destruct (Refine_ctor_accounts _ _ _ _ _ _ Hm C) as (-> & Eb & Bb).
  assert (B : deviceBytes (engineOf mp tp rp) < 2 ^ 64) by lia.
  destruct (engineOf_paddedBytes mp tp rp B) as (P & S & N).
  pose proof (accounted_unpadded_range (engineOf mp tp rp)) as U.
  assert (F : Forall (fun pu => 0 <= snd pu <= fst pu)
                (accountedBuffers (engineOf mp tp rp))).
  { rewrite Forall_forall in *. intros [p u] Hin. cbn.
    pose proof (U _ Hin) as Hu. cbn in Hu.
    pose proof (Hpu _ _ Hin). lia. }
  destruct (sum_size_dominated _ F ltac:(lia)) as (Su & Tu).
  split; [|split; [|split]].
  - unfold getDeviceMemoryConsumptionUnpadded, getDeviceMemoryConsumption.
    apply megabytes_monotone.
    rewrite unpaddedBytes_accounted, Su, P, <- S. exact Tu.
  - apply paddedBytes_accounted.
  - apply unpaddedBytes_accounted.
  - unfold accountedBuffers.
    destruct (useColorOptimization _); reflexivity.
Qed.

Context {PL : PitchLaws R} {HL : HostUtilsLaws H}.

(** C7: between two constructed engines whose configurations are sane
    and differ only by a tile buffer width, a tile buffer height or a
    [halfNbDepths] that is not smaller in the second, neither
    [getDeviceMemoryConsumption] nor
    [getDeviceMemoryConsumptionUnpadded] decreases. *)
Theorem memory_consumption_monotone
    mp tp rp tp' rp' mem1 mem1' mem2 mem2' e e' :
  sane tp rp -> sane tp' rp' -> grown tp rp tp' rp' ->
  0 <= bytesInUse mem1 -> 0 <= bytesInUse mem2 ->
  Refine_ctor mp tp rp mem1 = Some (e, mem1') ->
  Refine_ctor mp tp' rp' mem2 = Some (e', mem2') ->
  (getDeviceMemoryConsumption e <= getDeviceMemoryConsumption e')%Q
  /\ (getDeviceMemoryConsumptionUnpadded e
      <= getDeviceMemoryConsumptionUnpadded e')%Q.
Proof.
  intros S S' G Hm1 Hm2 C C'.
  destruct (Refine_ctor_accounts _ _ _ _ _ _ Hm1 C) as (-> & Eb & Bb).
  destruct (Refine_ctor_accounts _ _ _ _ _ _ Hm2 C') as (-> & Eb' & Bb').
  assert (B : deviceBytes (engineOf mp tp rp) < 2 ^ 64) by lia.
  assert (B' : deviceBytes (engineOf mp tp' rp') < 2 ^ 64) by lia.
  destruct (engineOf_paddedBytes mp tp rp B) as (P & _ & _).
  destruct (engineOf_paddedBytes mp tp' rp' B') as (P' & _ & _).
  pose proof (sane_unpaddedBytes mp tp rp S B) as U.
  pose proof (sane_unpaddedBytes mp tp' rp' S' B') as U'.
  destruct (grown_engine mp tp rp tp' rp' S S' G) as (Gd & Gl & Gz).
  unfold getDeviceMemoryConsumption, getDeviceMemoryConsumptionUnpadded.
  split; apply megabytes_monotone.
  - rewrite P, P'. lia.
  - rewrite U, U'. lia.
Qed.

End Devices.

(** C8: when the three export flags are off, a call of [refineRc] adds
    no export work to the trace (no file written, no copy to the host, no
    exporter called); and whatever the export flags are set to, the call
    leaves the same device buffers and the same camera cache, provided
    the kernels do not read the export flags of the parameter block. *)
Theorem export_is_silent {KI : KernelsIgnoreExportFlags} tile inS inN w :
  (exportIntermediateDepthSimMaps (_refineParams (self w)) = false ->
   exportIntermediateCrossVolumes (_refineParams (self w)) = false ->
   exportIntermediateVolume9pCsv (_refineParams (self w)) = false ->
   exists new,
     trace (run (refineRc tile inS inN) w) = new ++ trace w
     /\ Forall (fun ev => is_export ev = false) new)
  /\ (forall maps cross csv,
        numeric_state
          (run (refineRc tile inS inN)
             (mkWorld
                (with_params (self w)
                   (with_export_flags (_refineParams (self w)) maps cross csv))
                (cache w) (trace w)))
        = numeric_state (run (refineRc tile inS inN) w)).
Proof.
  split.
  - intros E1 E2 E3.
    destruct (grows_inv _ _ _ (refineRc_allowed tile inS inN w))
      as (new & Et & F).
    exists new. split; [exact Et|].
    eapply Forall_impl; [|exact F].
    unfold allowed_in. intros [k| | | | | |]; cbn;
      rewrite ?E1, ?E2, ?E3; cbn; try reflexivity; discriminate.
  - intros maps cross csv.
    set (w1 := mkWorld _ (cache w) (trace w)).
    assert (N : forall v, numeric_state v = numeric_state (quiet v))
      by reflexivity.
    rewrite (N (run _ w1)), (N (run _ w)).
    rewrite refineRc_quiet, (refineRc_quiet tile inS inN w).
    reflexivity.
Qed.

End WithPlatform.

End RefineSpec.

(* ================================================================== *)
(** * The engine on the reference platform *)
(* ================================================================== *)

Module RefineExamples.

Import DepthMap Reference ReferenceFacts PipelineFacts MonotoneFacts RefineSpec.

(** C1, as stated, fails on the code: with [halfNbDepths = 0] and
    [optimizationNbIterations = -1] the constructor returns an engine
    that holds these parameters, after reserving 49152 bytes of device
    memory for its buffers (a volume of one depth among them). *)
Lemma invalid_parameters_accepted :
  halfNbDepths degenerateParams = 0
  /\ optimizationNbIterations degenerateParams = -1
  /\ exists e : Refine,
       engine degenerateParams = Some (e, 49152)
       /\ _refineParams e = degenerateParams
       /\ getSize (_volumeRefineSim_dmp e) = [16; 16; 1]
       /\ getBuffer (_volumeRefineSim_dmp e) = true.
Proof.
  split; [reflexivity|]. split; [reflexivity|].
  exists (engineOf (H:=host) tt tile16 degenerateParams).
  repeat split; vm_compute; reflexivity.
Qed.

(** With [scale = 0] the constructor divides by zero on an untouched
    device; with a 32768x32768 tile buffer the device refuses the first
    depth/similarity map, 262144 bytes of pitch times 32768 rows; with
    the plain parameters the seven requests are granted in order. *)
Lemma zero_scale_divides_by_zero :
  Refine_construct tt tile16 zeroScaleParams 0 = DividedByZero 0.
Proof. reflexivity. Qed.

Lemma huge_tile_refused :
  Refine_construct tt hugeTile plainParams 0
  = AllocationRefused 0 8589934592.
Proof. reflexivity. Qed.

Lemma plain_requests :
  allocationRequests tile16 plainParams
  = [8192; 8192; 8192; 8192; 40960; 8192; 8192]
  /\ reserve (allocationRequests tile16 plainParams) 0 = inl 90112.
Proof. split; vm_compute; reflexivity. Qed.


(** On the reference platform the fused cell is 0 + 1 + 2 + 3. *)
Lemma fused_cell_value :
  fusedSimilarity tileA (world plainParams) 3 4 1 = 6.
Proof. reflexivity. Qed.

Lemma refineRc_passthrough_witness :
  let w := world passThroughParams in
  let w' := run (refineRc tileA coarseMap coarseNormals) w in
  _sgmDepthPixSizeMap_dmp (self w')
  = _sgmDepthPixSizeMap_dmp (self (upscalePhase tileA coarseMap coarseNormals w))
  /\ forall x y,
       contents (_refinedDepthSimMap_dmp (self w')) x y
       = (fst (contents (_sgmDepthPixSizeMap_dmp (self w')) x y), one_f).
Proof.
  intros w.
  apply (refineRc_passthrough tileA coarseMap coarseNormals w).
  reflexivity.
Defined.

Lemma refineRc_optimization_disabled_witness :
  let w := world noOptimizationParams in
  let fused := fusePhase tileA (upscalePhase tileA coarseMap coarseNormals w) in
  let w' := run (refineRc tileA coarseMap coarseNormals) w in
  _refinedDepthSimMap_dmp (self w') = _refinedDepthSimMap_dmp (self fused)
  /\ _optimizedDepthSimMap_dmp (self w')
     = overwrite (_optimizedDepthSimMap_dmp (self fused))
         (contents (_refinedDepthSimMap_dmp (self fused)))
  /\ contents (_optimizedDepthSimMap_dmp (self w'))
     = contents (_refinedDepthSimMap_dmp (self w'))
  /\ (_sgmDepthPixSizeMap_dmp (self w'), _normalMap_dmp (self w'),
      _volumeRefineSim_dmp (self w'), _optImgVariance_dmp (self w'),
      _optTmpDepthMap_dmp (self w'))
     = (_sgmDepthPixSizeMap_dmp (self fused), _normalMap_dmp (self fused),
        _volumeRefineSim_dmp (self fused), _optImgVariance_dmp (self fused),
        _optTmpDepthMap_dmp (self fused))
  /\ exists new,
       trace w' = DeviceCopy :: new ++ trace w
       /\ Forall (fun ev => is_optimize ev = false) new.
Proof.
  intros w.
  apply (refineRc_optimization_disabled tileA coarseMap coarseNormals w).
  left. reflexivity.
Defined.

Lemma plain_engine_constructed :
  Refine_ctor tt tile16 plainParams 0
  = Some (engineOf tt tile16 plainParams, 90112).
Proof. vm_compute. reflexivity. Defined.

Lemma deeper_engine_constructed :
  Refine_ctor tt tile32 deeperParams 0
  = Some (engineOf tt tile32 deeperParams, 245760).
Proof. vm_compute. reflexivity. Defined.

Lemma volume_depth_extent_witness :
  let ops := [OpRefineRc tileA coarseMap coarseNormals;
              OpExportVolume tileA "again";
              OpRefineRc tileA coarseMap coarseNormals] in
  volumeDepthExtent (engineOf tt tile16 plainParams)
  = 2 * halfNbDepths plainParams + 1
  /\ let w' := run (forEach ops perform)
                 (mkWorld (engineOf tt tile16 plainParams) [] []) in
     volumeDepthExtent (self w') = 2 * halfNbDepths plainParams + 1
     /\ forall ev r, In ev (trace w') -> similarity_range ev = Some r ->
          r = mkRange 0 (2 * halfNbDepths plainParams + 1).
Proof.
  intros ops.
  apply (volume_depth_extent (R:=device) (H:=host) (K:=kernels) tt tile16 plainParams 0
           (engineOf (H:=host) tt tile16 plainParams) 90112 ops []).
  - cbn [halfNbDepths plainParams]. lia.
  - exact plain_engine_constructed.
Defined.

Lemma plainParams_sane : sane tile16 plainParams.
Proof. unfold sane. repeat split; now vm_compute. Defined.

Lemma deeperParams_sane : sane tile32 deeperParams.
Proof. unfold sane. repeat split; now vm_compute. Defined.

Lemma memory_consumption_monotone_witness :
  (getDeviceMemoryConsumption (engineOf tt tile16 plainParams)
   <= getDeviceMemoryConsumption (engineOf tt tile32 deeperParams))%Q
  /\ (getDeviceMemoryConsumptionUnpadded (engineOf tt tile16 plainParams)
      <= getDeviceMemoryConsumptionUnpadded (engineOf tt tile32 deeperParams))%Q.
Proof.
  apply (memory_consumption_monotone (R:=device) (H:=host) tt tile16 plainParams
           tile32 deeperParams 0 90112 0 245760).
  - exact plainParams_sane.
  - exact deeperParams_sane.
  - unfold grown.
    cbn [halfNbDepths plainParams deeperParams with_halfNbDepths
         bufferWidth bufferHeight tile16 tile32].
    repeat split; lia.
  - cbn. lia.
  - cbn. lia.
  - exact plain_engine_constructed.
  - exact deeper_engine_constructed.
Defined.

Lemma padded_covers_unpadded_witness :
  let e := engineOf tt tile16 plainParams in
  (getDeviceMemoryConsumptionUnpadded e <= getDeviceMemoryConsumption e)%Q
  /\ paddedBytes e = sum_size (map fst (accountedBuffers e))
  /\ unpaddedBytes e = sum_size (map snd (accountedBuffers e))
  /\ List.length (accountedBuffers e)
     = if useColorOptimization (_refineParams e) then 7%nat else 5%nat.
Proof.
  intros e.
  apply (padded_covers_unpadded (R:=device) (H:=host) tt tile16 plainParams 0 e 90112).
  - cbn. lia.
  - exact plain_engine_constructed.
  - intros p u Hin. vm_compute in Hin.
    repeat (destruct Hin as [Hin|Hin];
            [inversion Hin; subst; lia|]).
    contradiction.
Defined.

Lemma export_is_silent_witness :
  let w := world plainParams in
  (exists new,
     trace (run (refineRc tileA coarseMap coarseNormals) w) = new ++ trace w
     /\ Forall (fun ev => is_export ev = false) new)
  /\ (forall maps cross csv,
        numeric_state
          (run (refineRc tileA coarseMap coarseNormals)
             (mkWorld
                (with_params (self w)
                   (with_export_flags (_refineParams (self w)) maps cross csv))
                (cache w) (trace w)))
        = numeric_state (run (refineRc tileA coarseMap coarseNormals) w)).
Proof.
  intros w.
  destruct (export_is_silent tileA coarseMap coarseNormals w) as [A B].
  split.
  - apply A; reflexivity.
  - exact B.
Defined.

End RefineExamples.

(* ================================================================== *)
(** * More on the intrinsics: import of parameters, Jacobians *)
(* ================================================================== *)

Module IntrinsicsExtra.

Import Intrinsics.

Section Vectors.

Context {A : Type}.

Lemma vget_middle (pre : list A) x post :
  vget (pre ++ x :: post) (List.length pre) = Some x.
Proof.
  unfold vget. rewrite nth_error_app2 by lia.
  rewrite Nat.sub_diag. reflexivity.
Qed.

Lemma vset_middle (pre : list A) y post x :
  vset (pre ++ y :: post) (List.length pre) x = Some (pre ++ x :: post).
Proof.
  unfold vset.
  assert (L : (List.length pre <? List.length (pre ++ y :: post))%nat = true).
  { apply Nat.ltb_lt. rewrite length_app. cbn. lia. }
  rewrite L. f_equal.
  rewrite firstn_app, Nat.sub_diag, firstn_all. cbn [firstn].
  rewrite app_nil_r. f_equal. f_equal.
  rewrite skipn_app, skipn_all2 by lia.
  replace (S (List.length pre) - List.length pre)%nat with 1%nat by lia.
  reflexivity.
Qed.

(** The loop copies [mid], the entries of [params] from index [from] on,
    over the entries of [out] one place further. *)
Lemma shiftCopy_copies (mid : list A) : forall ppre pre junk,
  List.length pre = S (List.length ppre) ->
  List.length junk = List.length mid ->
  shiftCopy (ppre ++ mid) (List.length ppre) (List.length mid) (pre ++ junk)
  = Some (pre ++ mid).
Proof.
  induction mid as [|x mid IH]; intros ppre pre junk Lp Lj.
  - destruct junk; [reflexivity|discriminate].
  - destruct junk as [|j junk]; [discriminate|].
    cbn [List.length shiftCopy].
    rewrite vget_middle. cbn [andThen].
    rewrite <- Lp, vset_middle. cbn [andThen].
    replace (ppre ++ x :: mid) with ((ppre ++ [x]) ++ mid)
      by (rewrite <- app_assoc; reflexivity).
    replace (pre ++ x :: junk) with ((pre ++ [x]) ++ junk)
      by (rewrite <- app_assoc; reflexivity).
    replace (List.length pre) with (List.length (ppre ++ [x]))
      by (rewrite length_app; cbn; lia).
    rewrite IH.
    + rewrite <- app_assoc. reflexivity.
    + rewrite !length_app. cbn. lia.
    + cbn in Lj. lia.
Qed.

End Vectors.

Section ParamsImport.

Context {F : Type} {SF : Scalar F} {V : VersionOrder} {VL : VersionLaws V}.

(** For a file older than 1.2.0 the single focal is written twice and the
    other parameters follow. *)
Lemma legacy_expansion (p0 : F) rest junk :
  List.length junk = List.length rest ->
  andThen (vset (zero :: zero :: junk) 0 p0) (fun u =>
  andThen (vset u 1 p0) (fun u =>
  shiftCopy (p0 :: rest) 1 (List.length rest) u))
  = Some (p0 :: p0 :: rest).
Proof.
  intros L. cbn [vset List.length Nat.ltb Nat.leb firstn skipn app andThen].
  apply (shiftCopy_copies rest [p0] [p0; p0] junk); [reflexivity|exact L].
Qed.

Lemma not_before_1_2_0 v :
  version_lt v (mkVersion 1 2 1) = false ->
  version_lt v (mkVersion 1 2 0) = false.
Proof.
  intros N. destruct (version_lt v (mkVersion 1 2 0)) eqn:E; [|reflexivity].
  apply before_1_2_0 in E. congruence.
Qed.

(** X1.  For a file of version 1.2.1 or later, [importFromParams] never
    indexes out of range; it returns true exactly for four parameters,
    which become scale and offset as they are, and otherwise returns
    false and leaves the intrinsics as they were. *)
Theorem import_current (I : IntrinsicsScaleOffset F) params v :
  version_lt v (mkVersion 1 2 1) = false ->
  importFromParams I params v
  = Some match params with
         | [fx; fy; cx; cy] =>
             (true, mkIntrinsics (_w I) (_h I) (mkVec2 fx fy) (mkVec2 cx cy))
         | _ => (false, I)
         end.
Proof.
  intros N. pose proof (not_before_1_2_0 v N) as N0.
  unfold importFromParams, updateParamsFromVersion. rewrite N, N0.
  cbn [andThen fst snd negb]. unfold updateFromParams.
  destruct params as [|a [|b [|c [|d [|e params]]]]]; reflexivity.
Qed.

(** X2.  For a file older than 1.2.0, [importFromParams] accepts exactly
    three parameters (focal, principal point from the corner): both scale
    components become the focal and the offset is the principal point
    moved to the image centre.  With more than three it returns false and
    leaves the intrinsics as they were; with fewer it indexes a vector
    out of range before any size is checked. *)
Theorem import_legacy (I : IntrinsicsScaleOffset F) params v :
  version_lt v (mkVersion 1 2 0) = true ->
  importFromParams I params v
  = match params with
    | [f; cx; cy] =>
        Some (true, mkIntrinsics (_w I) (_h I) (mkVec2 f f) (fromCorner I cx cy))
    | _ :: _ :: _ :: _ :: _ => Some (false, I)
    | _ => None
    end.
Proof.
  intros L. pose proof (before_1_2_0 v L) as L1.
  unfold importFromParams, updateParamsFromVersion. rewrite L, L1.
  destruct params as [|p0 rest]; [reflexivity|].
  cbn [vget nth_error andThen].
  assert (R : resize [] (List.length (p0 :: rest) + 1) zero
              = zero :: zero :: repeat zero (List.length rest)).
  { unfold resize. rewrite firstn_nil. cbn [List.length app].
    replace (S (List.length rest) + 1 - 0)%nat
      with (S (S (List.length rest))) by lia.
    reflexivity. }
  rewrite R.
  replace (List.length (p0 :: rest) - 1)%nat with (List.length rest)
    by (cbn; lia).
  rewrite legacy_expansion by apply repeat_length.
  cbn [andThen].
  destruct rest as [|p1 [|p2 [|p3 rest]]]; reflexivity.
Qed.

(** X3.  For a file of version 1.2.0 (at least 1.2.0, older than 1.2.1),
    [importFromParams] accepts exactly four parameters: scale as it is,
    offset moved from the corner to the image centre.  With more than
    four it returns false and leaves the intrinsics as they were; with
    fewer it indexes the vector out of range before the size is checked. *)
Theorem import_intermediate (I : IntrinsicsScaleOffset F) params v :
  version_lt v (mkVersion 1 2 0) = false ->
  version_lt v (mkVersion 1 2 1) = true ->
  importFromParams I params v
  = match params with
    | [fx; fy; cx; cy] =>
        Some (true, mkIntrinsics (_w I) (_h I) (mkVec2 fx fy) (fromCorner I cx cy))
    | _ :: _ :: _ :: _ :: _ :: _ => Some (false, I)
    | _ => None
    end.
Proof.
  intros N0 L1.
  unfold importFromParams, updateParamsFromVersion. rewrite N0, L1.
  cbn [andThen].
  destruct params as [|a [|b [|c [|d [|e params]]]]]; try reflexivity.
Qed.

End ParamsImport.

(** Sums and differences of exact points. *)
Definition qadd (p d : Vec2 Q) : Vec2 Q :=
  mkVec2 (v0 p + v0 d)%Q (v1 p + v1 d)%Q.

(** X5.  In exact arithmetic [cam2ima] is affine and its three Jacobians
    are its exact increments: moving the point by [d] moves the image by
    [getDerivativeCam2ImaWrtPt * d], changing the scale by [d] moves it
    by [getDerivativeCam2ImaWrtScale(p) * d], and moving the offset by
    [d] moves it by [getDerivativeCam2ImaWrtPrincipalPt * d]. *)
Theorem cam2ima_increments (I : IntrinsicsScaleOffset Q) (p d : Vec2 Q) :
  veq (cam2ima I (qadd p d))
      (qadd (cam2ima I p) (mulv (getDerivativeCam2ImaWrtPt I) d))
  /\ veq (cam2ima (setScale I (qadd (_scale I) d)) p)
         (qadd (cam2ima I p) (mulv (getDerivativeCam2ImaWrtScale I p) d))
  /\ veq (cam2ima (setOffset I (qadd (_offset I) d)) p)
         (qadd (cam2ima I p) (mulv (getDerivativeCam2ImaWrtPrincipalPt I) d)).
Proof.
  unfold veq, cam2ima, vadd, cwiseProduct, getPrincipalPoint, qadd, mulv,
    getDerivativeCam2ImaWrtPt, getDerivativeCam2ImaWrtScale,
    getDerivativeCam2ImaWrtPrincipalPt, Identity, setScale, setOffset,
    zero, one; simpl.
  repeat split; ring.
Qed.

(** X6.  In exact arithmetic and for nonzero scale components, the
    Jacobians of [ima2cam] with respect to the point and to the principal
    point are its exact increments, and [getDerivativeIma2CamWrtPt] is
    the inverse matrix of [getDerivativeCam2ImaWrtPt]. *)
Theorem ima2cam_increments (I : IntrinsicsScaleOffset Q) (p d : Vec2 Q) :
  ~ (v0 (_scale I) == 0)%Q ->
  ~ (v1 (_scale I) == 0)%Q ->
  veq (ima2cam I (qadd p d))
      (qadd (ima2cam I p) (mulv (getDerivativeIma2CamWrtPt I) d))
  /\ veq (ima2cam (setOffset I (qadd (_offset I) d)) p)
         (qadd (ima2cam I p) (mulv (getDerivativeIma2CamWrtPrincipalPt I) d))
  /\ meq (mmul (getDerivativeIma2CamWrtPt I) (getDerivativeCam2ImaWrtPt I))
         Identity.
Proof.
  intros H0 H1.
  unfold veq, meq, ima2cam, getPrincipalPoint, qadd, mulv, mmul,
    getDerivativeIma2CamWrtPt, getDerivativeIma2CamWrtPrincipalPt,
    getDerivativeCam2ImaWrtPt, Identity, setOffset, zero, one; simpl.
  repeat split; field; assumption.
Qed.

(** X7.  In exact arithmetic, [getDerivativeIma2CamWrtScale(p)] is the
    derivative of [ima2cam(p)] in the scale: for a change [d] of the
    scale that keeps it nonzero, the increment of [ima2cam(p)] times the
    new scale is the Jacobian entry times [d] times the old scale, in
    each coordinate (so the difference quotient tends to the entry). *)
Theorem ima2cam_scale_derivative (I : IntrinsicsScaleOffset Q) (p d : Vec2 Q) :
  ~ (v0 (_scale I) == 0)%Q -> ~ (v1 (_scale I) == 0)%Q ->
  ~ (v0 (_scale I) + v0 d == 0)%Q -> ~ (v1 (_scale I) + v1 d == 0)%Q ->
  let I' := setScale I (qadd (_scale I) d) in
  let J := getDerivativeIma2CamWrtScale I p in
  ((v0 (ima2cam I' p) - v0 (ima2cam I p)) * (v0 (_scale I) + v0 d)
   == m00 J * v0 d * v0 (_scale I))%Q
  /\ ((v1 (ima2cam I' p) - v1 (ima2cam I p)) * (v1 (_scale I) + v1 d)
      == m11 J * v1 d * v1 (_scale I))%Q
  /\ (m01 J == 0)%Q /\ (m10 J == 0)%Q.
Proof.
  intros H0 H1 H0' H1'.
  unfold ima2cam, getPrincipalPoint, qadd, getDerivativeIma2CamWrtScale,
    setScale, zero; simpl.
  repeat split; try field; try (split; assumption); reflexivity.
Qed.

(** X8.  In exact arithmetic, a principal point read from a file older
    than 1.2.0 is the principal point of the imported intrinsics: the
    move to the image centre made at import is undone by
    [getPrincipalPoint]. *)
Theorem import_legacy_principal_point {V : VersionOrder} {VL : VersionLaws V}
    (I : IntrinsicsScaleOffset Q) (f cx cy : Q) v :
  version_lt v (mkVersion 1 2 0) = true ->
  exists I',
    importFromParams I [f; cx; cy] v = Some (true, I')
    /\ veq (getPrincipalPoint I') (mkVec2 cx cy)
    /\ _scale I' = mkVec2 f f.
Proof.
  intros L. eexists. split; [apply (import_legacy I [f; cx; cy] v L)|].
  split; [|reflexivity].
  unfold veq, getPrincipalPoint, fromCorner, two; simpl.
  split; field.
Qed.

End IntrinsicsExtra.

(* ================================================================== *)
(** * More on the Refine engine: schedule, frames, accounting *)
(* ================================================================== *)

Module RefineExtra.

Import DepthMap ArithFacts BufferFacts PipelineFacts MemoryFacts
  ConstructionFacts.

Section WithPlatform.

Context {R : CudaRuntime} {H : HostUtils} {K : DeviceKernels}.

Lemma launches_app t1 t2 : launches (t1 ++ t2) = launches t1 ++ launches t2.
Proof. unfold launches. apply flat_map_app. Qed.

Lemma launches_export tile name e :
  launches (volumeExportEvents tile name e) = [].
Proof.
  unfold volumeExportEvents.
  destruct (negb _ && negb _); [reflexivity|].
  destruct (exportIntermediateVolume9pCsv _);
    destruct (exportIntermediateCrossVolumes _); reflexivity.
Qed.

Lemma launches_similarity range l :
  launches (rev (map (fun tc => Launch (VolumeRefineSimilarity tc range)) l))
  = rev (map (fun tc => VolumeRefineSimilarity tc range) l).
Proof.
  induction l as [|tc l IH]; [reflexivity|].
  cbn [map rev]. rewrite launches_app, IH. reflexivity.
Qed.

Lemma upscalePhase_launches tile inS inN w :
  launches (trace (upscalePhase tile inS inN w))
  = rev (upscaleSchedule (_refineParams (self w)) inN) ++ launches (trace w).
Proof.
  unfold upscalePhase, upscaleSchedule.
  destruct (exportIntermediateDepthSimMaps (_refineParams (self w)));
    destruct (useNormalMap (_refineParams (self w)) && getBuffer inN);
    reflexivity.
Qed.

Lemma fusePhase_launches tile w :
  launches (trace (fusePhase tile w))
  = rev (fuseSchedule (_refineParams (self w)) tile
           (volumeDepthExtent (self w)))
    ++ launches (trace w).
Proof.
  unfold fusePhase, fuseSchedule.
  destruct (useRefineFuse (_refineParams (self w))); [|reflexivity].
  rewrite refineAndFuse_phases. unfold fuseFinish.
  rewrite exportVolumeInformation_effect. cbn [trace].
  destruct (fuseLoop_facts tile w) as (_ & _ & L3). rewrite L3.
  change (launches (Launch VolumeRefineBestDepth :: ?t))
    with (VolumeRefineBestDepth :: launches t).
  rewrite !launches_app, launches_export, launches_similarity.
  cbn [app launches flat_map rev].
  rewrite rev_app_distr. cbn [rev app].
  rewrite <- !app_assoc. reflexivity.
Qed.

Lemma optimizePhase_launches tile w :
  launches (trace (optimizePhase tile w))
  = rev (optimizeSchedule (_refineParams (self w))) ++ launches (trace w).
Proof.
  unfold optimizePhase, optimizeWorld, optimizeSchedule.
  destruct (exportIntermediateDepthSimMaps (_refineParams (self w)));
    destruct (useColorOptimization (_refineParams (self w))
              && (0 <? optimizationNbIterations (_refineParams (self w))));
    reflexivity.
Qed.

(** X9.  A call of [refineRc] launches, in this order: the upscale and
    the pixel-size kernels; the normal-map upscale when normal maps are
    enabled and the input normal map has a buffer; then either the volume
    initialization, one similarity kernel per target camera in the order
    of [refineTCams], each over the depth range of the volume, and the
    best-depth kernel, or, with [useRefineFuse] off, the copy of the
    depth alone; and last the optimization kernel when it is enabled with
    a positive iteration count.  It launches nothing else. *)
Theorem refineRc_schedule tile inS inN w :
  launches (trace (run (refineRc tile inS inN) w))
  = rev (kernelSchedule (_refineParams (self w)) tile inN
           (volumeDepthExtent (self w)))
    ++ launches (trace w).
Proof.
  rewrite refineRc_phases.
  pose proof (upscalePhase_layout tile inS inN w) as L1.
  pose proof (fusePhase_layout tile (upscalePhase tile inS inN w)) as L2.
  rewrite optimizePhase_launches, fusePhase_launches, upscalePhase_launches.
  rewrite (layout_params _ _ L2), (layout_params _ _ L1),
    (layout_volume _ _ L1).
  unfold kernelSchedule. rewrite !rev_app_distr, <- !app_assoc.
  reflexivity.
Qed.

(** X10.  With [useRefineFuse] on and no target camera in the tile, the
    similarity volume left by [refineRc] is zero at every element: the
    best depth was extracted from the initialized volume. *)
Theorem refineRc_without_targets tile inS inN w :
  useRefineFuse (_refineParams (self w)) = true ->
  refineTCams tile = [] ->
  forall x y z,
    contents (_volumeRefineSim_dmp (self (run (refineRc tile inS inN) w)))
      x y z = zero_sim.
Proof.
  intros F E x y z. rewrite refineRc_phases.
  pose proof (layout_params _ _ (upscalePhase_layout tile inS inN w)) as P1.
  unfold optimizePhase, optimizeWorld, fusePhase. rewrite P1, F.
  rewrite refineAndFuse_phases. unfold fuseFinish, fuseLoop.
  rewrite E. rewrite exportVolumeInformation_effect.
  destruct (exportIntermediateDepthSimMaps _);
    destruct (useColorOptimization _ && _); reflexivity.
Qed.

(** X11.  When normal maps are disabled, or the input normal map has no
    buffer, [refineRc] leaves the normal map of the engine as it was. *)
Theorem refineRc_keeps_normal_map tile inS inN w :
  useNormalMap (_refineParams (self w)) = false \/ getBuffer inN = false ->
  _normalMap_dmp (self (run (refineRc tile inS inN) w))
  = _normalMap_dmp (self w).
Proof.
  intros Off.
  assert (D : useNormalMap (_refineParams (self w)) && getBuffer inN = false).
  { destruct Off as [-> | ->]; [reflexivity|apply andb_false_r]. }
  rewrite refineRc_phases.
  set (w1 := upscalePhase tile inS inN w).
  assert (N1 : _normalMap_dmp (self w1) = _normalMap_dmp (self w)).
  { unfold w1, upscalePhase. rewrite D. reflexivity. }
  assert (N2 : _normalMap_dmp (self (fusePhase tile w1))
               = _normalMap_dmp (self w1)).
  { unfold fusePhase. destruct (useRefineFuse _); [|reflexivity].
    rewrite refineAndFuse_phases. unfold fuseFinish.
    rewrite exportVolumeInformation_effect. cbn [self].
    destruct (fuseLoop_facts tile w1) as (O & _ & _).
    exact (f_equal (fun '(_, _, _, _, n, _, _) => n) O). }
  rewrite <- N1, <- N2.
  unfold optimizePhase, optimizeWorld.
  destruct (exportIntermediateDepthSimMaps _);
    destruct (useColorOptimization _ && _); reflexivity.
Qed.

Lemma optimizePhase_keeps_volume tile w :
  _volumeRefineSim_dmp (self (optimizePhase tile w))
  = _volumeRefineSim_dmp (self w).
Proof.
  unfold optimizePhase, optimizeWorld.
  destruct (exportIntermediateDepthSimMaps _);
    destruct (useColorOptimization _ && _); reflexivity.
Qed.

Lemma upscalePhase_keeps_volume tile inS inN w :
  _volumeRefineSim_dmp (self (upscalePhase tile inS inN w))
  = _volumeRefineSim_dmp (self w).
Proof.
  unfold upscalePhase.
  destruct (useNormalMap _ && getBuffer inN); reflexivity.
Qed.

(** X12.  With [useRefineFuse] off, [refineRc] does not touch the
    similarity volume. *)
Theorem refineRc_passthrough_keeps_volume tile inS inN w :
  useRefineFuse (_refineParams (self w)) = false ->
  _volumeRefineSim_dmp (self (run (refineRc tile inS inN) w))
  = _volumeRefineSim_dmp (self w).
Proof.
  intros F. rewrite refineRc_phases, optimizePhase_keeps_volume.
  pose proof (layout_params _ _ (upscalePhase_layout tile inS inN w)) as P1.
  unfold fusePhase. rewrite P1, F. cbn [self write_refined
    _volumeRefineSim_dmp].
  apply upscalePhase_keeps_volume.
Qed.

Lemma layout_bytes e e' :
  layout e = layout e' ->
  paddedBytes e = paddedBytes e' /\ unpaddedBytes e = unpaddedBytes e'.
Proof.
  unfold layout, geometry. intros E.
  injection E as E1 E2 E3 E4 E5 E6 E7 E8 E9 E10 E11 E12 E13 E14 E15 E16 E17
    E18 E19 E20 E21 E22 E23 E24 E25 E26 E27 E28 E29 E30 E31.
  unfold paddedBytes, unpaddedBytes, getBytesPadded, getBytesUnpadded.
  rewrite E3, E5, E6, E7, E9, E10, E11, E13, E14, E15, E17, E18, E19,
    E21, E22, E23, E25, E26, E27, E29, E30, E31.
  split; reflexivity.
Qed.

(** X13.  No sequence of operations of the engine changes its tile or
    refine parameters or the pointer, sizes, pitch and element size of
    any of its seven buffers, so both memory accessors report after it
    what they reported before. *)
Theorem operations_keep_layout ops w :
  let w' := run (forEach ops perform) w in
  layout (self w') = layout (self w)
  /\ getDeviceMemoryConsumption (self w') = getDeviceMemoryConsumption (self w)
  /\ getDeviceMemoryConsumptionUnpadded (self w')
     = getDeviceMemoryConsumptionUnpadded (self w).
Proof.
  cbv zeta. destruct (performAll_invariant ops w) as [L _].
  destruct (layout_bytes _ _ L) as [P U].
  unfold getDeviceMemoryConsumption, getDeviceMemoryConsumptionUnpadded.
  rewrite P, U. repeat split. exact L.
Qed.

(** X14.  A constructed engine has its three depth/similarity maps and
    its volume allocated with the same width and height; its normal map
    is allocated exactly when [useNormalMap] is set and its two
    optimization buffers exactly when [useColorOptimization] is set. *)
Theorem constructor_buffers mp tp rp mem e mem' :
  Refine_ctor mp tp rp mem = Some (e, mem') ->
  getBuffer (_sgmDepthPixSizeMap_dmp e) = true
  /\ getBuffer (_refinedDepthSimMap_dmp e) = true
  /\ getBuffer (_optimizedDepthSimMap_dmp e) = true
  /\ getBuffer (_volumeRefineSim_dmp e) = true
  /\ getBuffer (_normalMap_dmp e) = useNormalMap rp
  /\ getBuffer (_optImgVariance_dmp e) = useColorOptimization rp
  /\ getBuffer (_optTmpDepthMap_dmp e) = useColorOptimization rp
  /\ getSize (_refinedDepthSimMap_dmp e) = getSize (_sgmDepthPixSizeMap_dmp e)
  /\ getSize (_optimizedDepthSimMap_dmp e) = getSize (_sgmDepthPixSizeMap_dmp e)
  /\ firstn 2 (getSize (_volumeRefineSim_dmp e))
     = getSize (_sgmDepthPixSizeMap_dmp e)
  /\ List.length (getSize (_volumeRefineSim_dmp e)) = 3%nat.
Proof.
  intros C. apply Refine_ctor_engineOf in C. subst e.
  unfold engineOf.
  cbn [_sgmDepthPixSizeMap_dmp _refinedDepthSimMap_dmp
       _optimizedDepthSimMap_dmp _normalMap_dmp _volumeRefineSim_dmp
       _optImgVariance_dmp _optTmpDepthMap_dmp].
  destruct (useNormalMap rp); destruct (useColorOptimization rp);
    repeat split.
Qed.

(** X15.  On a device that accounts for its allocations, the bytes a
    successful construction takes from the device are exactly the total
    that [getDeviceMemoryConsumption] converts to megabytes. *)
Theorem constructor_accounting {RL : CudaRuntimeLaws R}
    mp tp rp mem e mem' :
  0 <= bytesInUse mem ->
  Refine_ctor mp tp rp mem = Some (e, mem') ->
  bytesInUse mem' = bytesInUse mem + paddedBytes e
  /\ getDeviceMemoryConsumption e
     = megabytes (bytesInUse mem' - bytesInUse mem).
Proof.
  intros Hm C.
  destruct (Refine_ctor_accounts _ _ _ _ _ _ Hm C) as (-> & Eb & Bb).
  assert (B : deviceBytes (engineOf mp tp rp) < 2 ^ 64) by lia.
  destruct (engineOf_paddedBytes mp tp rp B) as (P & _ & _).
  unfold getDeviceMemoryConsumption. rewrite P.
  split; [exact Eb|]. f_equal. lia.
Qed.

Section Pitch.

Import MonotoneFacts.

Context {RL : CudaRuntimeLaws R} {PL : PitchLaws R} {HL : HostUtilsLaws H}.

(** X16.  On a device whose row pitch covers the row, a constructed
    engine with a sane configuration never reports fewer padded than
    unpadded megabytes: padding only adds bytes. *)
Theorem padding_only_adds mp tp rp mem e mem' :
  sane tp rp ->
  0 <= bytesInUse mem ->
  Refine_ctor mp tp rp mem = Some (e, mem') ->
  (getDeviceMemoryConsumptionUnpadded e <= getDeviceMemoryConsumption e)%Q
  /\ unpaddedBytes e <= paddedBytes e.
Proof.
  intros S Hm C.
  destruct (Refine_ctor_accounts _ _ _ _ _ _ Hm C) as (-> & Eb & Bb).
  assert (B : deviceBytes (engineOf mp tp rp) < 2 ^ 64) by lia.
  destruct (engineOf_paddedBytes mp tp rp B) as (P & _ & _).
  pose proof (sane_unpaddedBytes mp tp rp S B) as U.
  destruct (grown_engine mp tp rp tp rp S S (grown_refl tp rp))
    as (_ & _ & T).
  assert (L : unpaddedBytes (engineOf mp tp rp)
              <= paddedBytes (engineOf mp tp rp)) by (rewrite P, U; lia).
  split; [|exact L].
  unfold getDeviceMemoryConsumptionUnpadded, getDeviceMemoryConsumption.
  apply megabytes_monotone. rewrite U in *. lia.
Qed.

End Pitch.

End WithPlatform.

End RefineExtra.

(* ================================================================== *)
(** * The additional properties at concrete inputs *)
(* ================================================================== *)

Module ExtraExamples.

Import Intrinsics IntrinsicsExtra DepthMap Reference ReferenceFacts
  PipelineFacts RefineExtra RefineExamples.

#[export] Instance lexVersion_laws : VersionLaws lexVersion.
Proof.
  split. intros [[a b] c]. cbn [version_lt mkVersion lexVersion lex_lt].
  repeat match goal with
         | |- context [?x <? ?y] => destruct (Z.ltb_spec x y)
         | |- context [?x =? ?y] => destruct (Z.eqb_spec x y)
         end; cbn; intros X; try discriminate X; try reflexivity; lia.
Qed.

Lemma import_current_witness :
  importFromParams vga [1000 # 1; 1001 # 1; 10 # 1; -4 # 1] (1, 2, 3)
  = Some (true, mkIntrinsics 640 480 (mkVec2 (1000 # 1) (1001 # 1))
                  (mkVec2 (10 # 1) (-4 # 1))).
Proof.
  apply (import_current (V:=lexVersion) vga
           [1000 # 1; 1001 # 1; 10 # 1; -4 # 1] (1, 2, 3)).
  reflexivity.
Defined.

Lemma import_legacy_witness :
  importFromParams vga [1000 # 1; 330 # 1; 250 # 1] (1, 0, 0)
  = Some (true, mkIntrinsics 640 480 (mkVec2 (1000 # 1) (1000 # 1))
                  (fromCorner vga (330 # 1) (250 # 1))).
Proof.
  apply (import_legacy (V:=lexVersion) vga
           [1000 # 1; 330 # 1; 250 # 1] (1, 0, 0)).
  reflexivity.
Defined.

Lemma import_intermediate_witness :
  importFromParams vga [1000 # 1; 1001 # 1; 330 # 1; 250 # 1] (1, 2, 0)
  = Some (true, mkIntrinsics 640 480 (mkVec2 (1000 # 1) (1001 # 1))
                  (fromCorner vga (330 # 1) (250 # 1))).
Proof.
  apply (import_intermediate (V:=lexVersion) vga
           [1000 # 1; 1001 # 1; 330 # 1; 250 # 1] (1, 2, 0));
    reflexivity.
Defined.

Lemma import_legacy_principal_point_witness :
  exists I',
    importFromParams vga [1000 # 1; 330 # 1; 250 # 1] (1, 0, 0)
    = Some (true, I')
    /\ veq (getPrincipalPoint I') (mkVec2 (330 # 1) (250 # 1))
    /\ _scale I' = mkVec2 (1000 # 1) (1000 # 1).
Proof.
  apply (import_legacy_principal_point (V:=lexVersion) vga
           (1000 # 1) (330 # 1) (250 # 1) (1, 0, 0)).
  reflexivity.
Defined.

Lemma ima2cam_increments_witness :
  let p := mkVec2 (1 # 10) (2 # 3) in
  let d := mkVec2 (1 # 7) (-3 # 1) in
  veq (ima2cam vga (qadd p d))
      (qadd (ima2cam vga p) (mulv (getDerivativeIma2CamWrtPt vga) d))
  /\ veq (ima2cam (setOffset vga (qadd (_offset vga) d)) p)
         (qadd (ima2cam vga p)
            (mulv (getDerivativeIma2CamWrtPrincipalPt vga) d))
  /\ meq (mmul (getDerivativeIma2CamWrtPt vga) (getDerivativeCam2ImaWrtPt vga))
         Identity.
Proof.
  intros p d. apply (ima2cam_increments vga p d); cbn; discriminate.
Defined.

Lemma ima2cam_scale_derivative_witness :
  let p := mkVec2 (1 # 10) (2 # 3) in
  let d := mkVec2 (1 # 7) (1 # 1) in
  let I' := setScale vga (qadd (_scale vga) d) in
  let J := getDerivativeIma2CamWrtScale vga p in
  ((v0 (ima2cam I' p) - v0 (ima2cam vga p)) * (v0 (_scale vga) + v0 d)
   == m00 J * v0 d * v0 (_scale vga))%Q
  /\ ((v1 (ima2cam I' p) - v1 (ima2cam vga p)) * (v1 (_scale vga) + v1 d)
      == m11 J * v1 d * v1 (_scale vga))%Q
  /\ (m01 J == 0)%Q /\ (m10 J == 0)%Q.
Proof.
  intros p d. apply (ima2cam_scale_derivative vga p d); cbn; discriminate.
Defined.

Lemma refineRc_without_targets_witness :
  contents
    (_volumeRefineSim_dmp
       (self (run (refineRc tileAlone coarseMap coarseNormals)
                (world plainParams))))
    3 4 1 = zero_sim.
Proof.
  apply (refineRc_without_targets tileAlone coarseMap coarseNormals
           (world plainParams)); reflexivity.
Defined.

Lemma refineRc_keeps_normal_map_witness :
  _normalMap_dmp
    (self (run (refineRc tileA coarseMap noNormals) (world plainParams)))
  = _normalMap_dmp (self (world plainParams)).
Proof.
  apply (refineRc_keeps_normal_map tileA coarseMap noNormals
           (world plainParams)).
  right. reflexivity.
Defined.

Lemma refineRc_passthrough_keeps_volume_witness :
  _volumeRefineSim_dmp
    (self (run (refineRc tileA coarseMap coarseNormals)
             (world passThroughParams)))
  = _volumeRefineSim_dmp (self (world passThroughParams)).
Proof.
  apply (refineRc_passthrough_keeps_volume tileA coarseMap coarseNormals
           (world passThroughParams)).
  reflexivity.
Defined.

Lemma constructor_buffers_witness :
  let e := engineOf (H:=host) tt tile16 plainParams in
  getBuffer (_sgmDepthPixSizeMap_dmp e) = true
  /\ getBuffer (_refinedDepthSimMap_dmp e) = true
  /\ getBuffer (_optimizedDepthSimMap_dmp e) = true
  /\ getBuffer (_volumeRefineSim_dmp e) = true
  /\ getBuffer (_normalMap_dmp e) = useNormalMap plainParams
  /\ getBuffer (_optImgVariance_dmp e) = useColorOptimization plainParams
  /\ getBuffer (_optTmpDepthMap_dmp e) = useColorOptimization plainParams
  /\ getSize (_refinedDepthSimMap_dmp e) = getSize (_sgmDepthPixSizeMap_dmp e)
  /\ getSize (_optimizedDepthSimMap_dmp e) = getSize (_sgmDepthPixSizeMap_dmp e)
  /\ firstn 2 (getSize (_volumeRefineSim_dmp e))
     = getSize (_sgmDepthPixSizeMap_dmp e)
  /\ List.length (getSize (_volumeRefineSim_dmp e)) = 3%nat.
Proof.
  intros e.
  apply (constructor_buffers (R:=device) (H:=host) tt tile16 plainParams
           0 e 90112).
  exact plain_engine_constructed.
Defined.

Lemma constructor_accounting_witness :
  let e := engineOf (H:=host) tt tile16 plainParams in
  90112 = 0 + paddedBytes e
  /\ getDeviceMemoryConsumption e = megabytes (90112 - 0).
Proof.
  intros e.
  apply (constructor_accounting (R:=device) (H:=host) tt tile16 plainParams
           0 e 90112).
  - cbn. lia.
  - exact plain_engine_constructed.
Defined.

Lemma padding_only_adds_witness :
  let e := engineOf (H:=host) tt tile16 plainParams in
  (getDeviceMemoryConsumptionUnpadded e <= getDeviceMemoryConsumption e)%Q
  /\ unpaddedBytes e <= paddedBytes e.
Proof.
  intros e.
  apply (padding_only_adds (R:=device) (H:=host) tt tile16 plainParams
           0 e 90112).
  - exact plainParams_sane.
  - cbn. lia.
  - exact plain_engine_constructed.
Defined.

End ExtraExamples.
